(** * KZG10 polynomial commitments with hiding: a model of [kzg_hiding.py]

    The development embeds the Python module [src/kzg_hiding.py] and proves
    properties of its functions.  Field elements, group elements and
    polynomials come from modules the file imports ([field], [group],
    [unipolynomial]); they enter the model as capabilities (type classes)
    and every theorem holds for any implementation of them. *)

From Stdlib Require Import String ZArith List Lia Bool Ring.
Import ListNotations.
Local Open Scope Z_scope.

(** ** Python outcomes: a value, a raised exception, or a loop that has not
    finished within the fuel it was given. *)

Inductive exn : Type :=
| AssertionError (msg : string)
| TypeError (msg : string)
| IndexError
| ValueError
| ZeroDivisionError.

Inductive outcome (A : Type) : Type :=
| Ret (a : A)
| Raise (e : exn)
| NoFuel.

Arguments Ret {A} a.
Arguments Raise {A} e.
Arguments NoFuel {A}.

Definition bind {A B : Type} (m : outcome A) (k : A -> outcome B) : outcome B :=
  match m with
  | Ret a => k a
  | Raise e => Raise e
  | NoFuel => NoFuel
  end.

Notation "x <- m ;; k" := (bind m (fun x => k))
  (at level 61, m at next level, right associativity).
Notation "' pat <- m ;; k" := (bind m (fun x => match x with pat => k end))
  (at level 61, pat pattern, m at next level, right associativity).

(** [assert cond, msg] *)
Definition py_assert (cond : bool) (msg : string) : outcome unit :=
  if cond then Ret tt else Raise (AssertionError msg).

(** A [for] loop whose body may raise: [for x in l: s = body(s, x)]. *)
Fixpoint for_each {A S : Type} (body : S -> A -> outcome S) (l : list A) (s : S)
  : outcome S :=
  match l with
  | [] => Ret s
  | x :: t => s' <- body s x ;; for_each body t s'
  end.

(** [range(n)]: empty when [n <= 0]. *)
Definition range (n : Z) : list Z := map Z.of_nat (seq 0 (Z.to_nat n)).

(** [enumerate(l)] *)
Definition enumerate {A : Type} (l : list A) : list (Z * A) :=
  combine (range (Z.of_nat (length l))) l.

(** A Python index: negative indices count from the end, anything outside
    the list raises [IndexError]. *)
Definition py_index {A : Type} (l : list A) (i : Z) : outcome nat :=
  let n := Z.of_nat (length l) in
  let j := if i <? 0 then i + n else i in
  if (0 <=? j) && (j <? n) then Ret (Z.to_nat j) else Raise IndexError.

(** [l[i]] *)
Definition py_get {A : Type} (l : list A) (i : Z) : outcome A :=
  j <- py_index l i ;;
  match nth_error l j with
  | Some x => Ret x
  | None => Raise IndexError
  end.

Fixpoint list_update {A : Type} (l : list A) (j : nat) (v : A) : list A :=
  match l, j with
  | [], _ => []
  | _ :: t, O => v :: t
  | x :: t, S j' => x :: list_update t j' v
  end.

(** [l[i] = v] *)
Definition py_set {A : Type} (l : list A) (i : Z) (v : A) : outcome (list A) :=
  j <- py_index l i ;; Ret (list_update l j v).

(** [max(l)]: [ValueError] on an empty sequence. *)
Definition py_max (l : list Z) : outcome Z :=
  match l with
  | [] => Raise ValueError
  | x :: t => Ret (fold_left Z.max t x)
  end.

(** ** The field capability ([field.Field], imported by the module).

    [Field] objects support [+], [-], [*], [/], [==]; [value0] is the entry
    [.value[0]] the module reads off an element. *)

Class FieldOps (F : Type) : Type := {
  Fzero : F;
  Fone : F;
  Fadd : F -> F -> F;
  Fmul : F -> F -> F;
  Fsub : F -> F -> F;
  Fopp : F -> F;
  Fdiv : F -> F -> F;
  Feqb : F -> F -> bool;
  value0 : F -> Z
}.

Class FieldLaws (F : Type) {ops : FieldOps F} : Prop := {
  F_ring : ring_theory Fzero Fone Fadd Fmul Fsub Fopp (@eq F);
  Feqb_eq : forall a b : F, Feqb a b = true <-> a = b
}.

Declare Scope F_scope.
Delimit Scope F_scope with F.
Infix "+" := Fadd : F_scope.
Infix "*" := Fmul : F_scope.
Infix "-" := Fsub : F_scope.
Notation "- x" := (Fopp x) : F_scope.
Infix "/" := Fdiv : F_scope.
Infix "==?" := Feqb (at level 70) : F_scope.

(** ** Polynomials *)

Section Polynomials.
Context {F : Type} {ops : FieldOps F}.
Local Open Scope F_scope.

(** Modelled from the spec: [unipolynomial.UniPolynomial] is imported, not
    defined, by the module.  A polynomial is its ordered sequence of
    coefficients, index = power of the variable. *)
Record UniPolynomial : Type := mkPoly { coeffs : list F }.

Definition all_zero (l : list F) : bool := forallb (fun c => c ==? Fzero) l.

(** Modelled from the spec: the degree is the highest index with a nonzero
    coefficient, and 0 for the all-zero (and the empty) polynomial. *)
Fixpoint degree_of (l : list F) : nat :=
  match l with
  | [] => O
  | _ :: t => if all_zero t then O else S (degree_of t)
  end.

Definition degree (p : UniPolynomial) : Z := Z.of_nat (degree_of (coeffs p)).

(** Modelled from the spec: [s ** i], exponentiation in the field. *)
Fixpoint Fpow (s : F) (i : nat) : F :=
  match i with
  | O => Fone
  | S j => s * Fpow s j
  end.

(** Modelled from the spec: [evaluate(point)] is the sum of
    [coeffs[i] * point^i] (section 8: p(5) = 1 + 10 + 75). *)
Fixpoint eval_from (l : list F) (x xi : F) : F :=
  match l with
  | [] => Fzero
  | c :: t => c * xi + eval_from t x (xi * x)
  end.

Definition evaluate (p : UniPolynomial) (x : F) : F := eval_from (coeffs p) x Fone.

(** Coefficient-wise sum of two coefficient sequences. *)
Fixpoint poly_add (p q : list F) : list F :=
  match p, q with
  | [], _ => q
  | _, [] => p
  | a :: p', b :: q' => (a + b) :: poly_add p' q'
  end.

(** Product of two coefficient sequences. *)
Fixpoint poly_mul (p q : list F) : list F :=
  match p with
  | [] => []
  | a :: p' => poly_add (map (Fmul a) q) (Fzero :: poly_mul p' q)
  end.

(** [quotient(x) * (x - d) + remainder], as a coefficient sequence. *)
Definition reconstruct (quotient : list F) (d remainder : F) : list F :=
  poly_add (poly_mul quotient [- d; Fone]) [remainder].

(** [KZG10Commitment.division_by_linear_divisor(coeffs, d)] *)
Definition division_body (d : F) (st : list F * F) (ic : Z * F)
  : outcome (list F * F) :=
  let '(quotient, remainder) := st in
  let '(i, coeff) := ic in
  if (i =? 0)%Z then Ret (quotient, coeff)
  else
    quotient' <- py_set quotient (- i)%Z remainder ;;
    Ret (quotient', remainder * d + coeff).

Definition division_by_linear_divisor (coeffs : list F) (d : F)
  : outcome (list F * F) :=
  _ <- py_assert (1 <? Z.of_nat (length coeffs))%Z
         "Polynomial degree must be at least 1" ;;
  let quotient := repeat Fzero (length coeffs - 1) in
  let remainder := Fzero in
  for_each (division_body d) (enumerate (rev coeffs)) (quotient, remainder).

(** The loop of [division_by_linear_divisor] after its first iteration, in
    closed form: [t] holds the remaining coefficients (highest first),
    [filled] the entries of the quotient already written, [r] the running
    remainder.  Used to state what the loop computes. *)
Fixpoint division_run (d : F) (t : list F) (filled : list F) (r : F)
  : list F * F :=
  match t with
  | [] => (filled, r)
  | c :: t' => division_run d t' (r :: filled) (r * d + c)
  end.

(** The same computation read from the low end of the coefficient list. *)
Fixpoint horner (d : F) (l : list F) (st : list F * F) : list F * F :=
  match l with
  | [] => st
  | c :: t => let '(q, r) := horner d t st in (r :: q, r * d + c)
  end.

(** Modelled from the spec: the method
    [UniPolynomial.division_by_linear_divisor(d)] used by
    [compute_witness_polynomial] is the same synthetic division, returning
    the quotient as a polynomial. *)
Definition poly_division_by_linear_divisor (p : UniPolynomial) (d : F)
  : outcome (UniPolynomial * F) :=
  '(q, r) <- division_by_linear_divisor (coeffs p) d ;;
  Ret (mkPoly q, r).

End Polynomials.

(** ** Multi-scalar multiplication *)

(** Group capability of the bases: the Python operators [+], [-] and
    [base * i] for an integer [i]; a result starts as the integer [0]. *)
Class GroupOps (G : Type) : Type := {
  gzero : G;
  gadd : G -> G -> G;
  gsub : G -> G -> G;
  imul : G -> Z -> G
}.

(** Scalars: [base * scalar], and the integer a scalar stands for where the
    code shifts and masks it (the scalar itself for a Python integer). *)
Class ScalarOps (G S : Type) : Type := {
  smul : G -> S -> G;
  to_bigint : S -> Z
}.

#[export] Instance int_scalar {G : Type} {grp : GroupOps G} : ScalarOps G Z :=
  {| smul := imul; to_bigint := fun z => z |}.

(** [negation_is_cheap = False] *)
Definition negation_is_cheap : bool := false.

(** The loop of [next_power_of_two]: [while d > 0: d >>= 1; k += 1], by
    recursion on the binary digits of [d]. *)
Fixpoint halvings (d : positive) (k : Z) : Z :=
  match d with
  | xH => k + 1
  | xO d' => halvings d' (k + 1)
  | xI d' => halvings d' (k + 1)
  end.

(** [next_power_of_two(n)] *)
Definition next_power_of_two (n : Z) : outcome Z :=
  _ <- py_assert (0 <=? n) "No negative integer" ;;
  let d := n in
  let k := 0 in
  Ret (match d with Zpos p => halvings p k | _ => k end).

(** A list comprehension whose element expression may raise. *)
Fixpoint comprehension {A B : Type} (f : A -> outcome B) (l : list A)
  : outcome (list B) :=
  match l with
  | [] => Ret []
  | x :: t => y <- f x ;; ys <- comprehension f t ;; Ret (y :: ys)
  end.

Section MSM.
Context {G S : Type} {grp : GroupOps G} {sc : ScalarOps G S}.

(** [msm_bigint_basic(bases, bigints)] *)
Definition msm_bigint_basic (bases : list G) (bigints : list S) : G :=
  let result := gzero in
  fold_left (fun result '(base, scalar) => gadd result (smul base scalar))
            (combine bases bigints) result.

Definition WINDOW_SIZE : Z := 5.

(** Body of the inner loop of [msm_bigint_wnaf]. *)
Definition wnaf_body (precomp : list (list G)) (i : Z) (result : G)
           (jbs : Z * (G * S)) : outcome G :=
  let '(j, (base, scalar)) := jbs in
  k <- next_power_of_two (to_bigint scalar) ;;
  if k >? i then
    let window :=
      Z.land (Z.shiftr (to_bigint scalar) i) (Z.shiftl 1 WINDOW_SIZE - 1) in
    if negb (window =? 0) then
      if window >=? Z.shiftl 1 (WINDOW_SIZE - 1) then
        row <- py_get precomp j ;;
        x <- py_get row (window - Z.shiftl 1 (WINDOW_SIZE - 1)) ;;
        Ret (gsub result x)
      else
        row <- py_get precomp j ;;
        x <- py_get row (window - 1) ;;
        Ret (gadd result x)
    else Ret result
  else Ret result.

(** [msm_bigint_wnaf(bases, bigints)] *)
Definition msm_bigint_wnaf (bases : list G) (bigints : list S) : outcome G :=
  let result := gzero in
  let precomp :=
    map (fun base => map (fun i => imul base i)
                         (range (Z.shiftl 1 (WINDOW_SIZE - 1)))) bases in
  sizes <- comprehension (fun bigint => next_power_of_two (to_bigint bigint))
                         bigints ;;
  bound <- py_max sizes ;;
  for_each (fun result i =>
              let result := gadd result result in
              for_each (wnaf_body precomp i) (enumerate (combine bases bigints))
                       result)
           (range bound) result.

(** [msm_bigint(negation_is_cheap, bases, bigints)] *)
Definition msm_bigint (negation_is_cheap : bool) (bases : list G)
           (bigints : list S) : outcome G :=
  if negation_is_cheap then msm_bigint_wnaf bases bigints
  else Ret (msm_bigint_basic bases bigints).

End MSM.

(** ** The group capability ([group.DummyGroup], imported by the module).

    The code draws group elements with [self.G1.field.random_element()]: a
    group element is a field element and [base * scalar] is the field
    product.  The methods [exp] and [scalar_mul] and the static [pairing]
    are taken as a capability. *)

Class DummyGroupOps (F : Type) : Type := {
  group_exp : F -> Z -> F;
  group_scalar_mul : F -> Z -> F;
  pairing : F -> F -> F
}.

Class DummyGroupLaws (F : Type) {ops : FieldOps F} {gops : DummyGroupOps F}
  : Prop := {
  (** exponentiation by one leaves the element unchanged *)
  group_exp_one : forall a : F, group_exp a 1 = a;
  (** the pairing is bilinear: a scalar moves from one side to the other *)
  pairing_bilinear :
    forall a b k : F, pairing (Fmul a k) b = pairing a (Fmul b k)
}.

(** A group object; two objects are equal when they are the same object. *)
Record DummyGroup : Type := { group_id : nat }.

Definition group_eqb (a b : DummyGroup) : bool :=
  Nat.eqb (group_id a) (group_id b).

Section KZG.
Context {F : Type} {ops : FieldOps F} {gops : DummyGroupOps F}.
Local Open Scope F_scope.

(** A Python integer met by a field operator is coerced into the field. *)
Fixpoint of_pos (p : positive) : F :=
  match p with
  | xH => Fone
  | xO q => let x := of_pos q in x + x
  | xI q => let x := of_pos q in x + x + Fone
  end.

Definition of_int (z : Z) : F :=
  match z with
  | Z0 => Fzero
  | Zpos p => of_pos p
  | Zneg p => - of_pos p
  end.

#[export] Instance field_group : GroupOps F :=
  {| gzero := Fzero; gadd := Fadd; gsub := Fsub;
     imul := fun base i => base * of_int i |}.

#[export] Instance field_scalar : ScalarOps F F :=
  {| smul := Fmul; to_bigint := value0 |}.

(** *** The source of randomness: [random_element()] and [randint(a, b)]
    read the next entry of a tape. *)
Record rng : Type := {
  field_tape : nat -> F;
  int_tape : nat -> Z;
  field_pos : nat;
  int_pos : nat
}.

Definition random_element (r : rng) : F * rng :=
  (field_tape r (field_pos r),
   {| field_tape := field_tape r; int_tape := int_tape r;
      field_pos := S (field_pos r); int_pos := int_pos r |}).

(** [randint(a, b)]: an integer [n] with [a <= n <= b]. *)
Definition randint (a b : Z) (r : rng) : Z * rng :=
  ((a + int_tape r (int_pos r) mod (b - a + 1))%Z,
   {| field_tape := field_tape r; int_tape := int_tape r;
      field_pos := field_pos r; int_pos := S (int_pos r) |}).

(** [[random_element() for _ in range(n)]] *)
Fixpoint random_elements (n : nat) (r : rng) : list F * rng :=
  match n with
  | O => ([], r)
  | S m =>
      let '(x, r1) := random_element r in
      let '(xs, r2) := random_elements m r1 in
      (x :: xs, r2)
  end.

(** *** [class Commitment] *)
Record Commitment : Type := { group : DummyGroup; value : F }.

(** [comm.value], under a name that a parameter called [value] leaves
    visible. *)
Definition value_of (comm : Commitment) : F := value comm.

(** [Commitment.__add__] *)
Definition Commitment_add (self other : Commitment) : outcome Commitment :=
  if negb (group_eqb (group self) (group other)) then
    Raise (TypeError "Can only add commitments from the same group")
  else
    Ret {| group := group self;
           value := group_exp (value self) 1 + group_exp (value other) 1 |}.

(** [Commitment.__sub__] *)
Definition Commitment_sub (self other : Commitment) : outcome Commitment :=
  if negb (group_eqb (group self) (group other)) then
    Raise (TypeError "Can only subtract commitments from the same group")
  else
    Ret {| group := group self;
           value := group_scalar_mul (value self) 1
                    + group_scalar_mul (value other) (-1) |}.

(** *** The structured reference string returned by [setup] *)
Record Params : Type := {
  powers_of_g : list F;
  powers_of_gamma_g : list F;
  h : F;
  beta_h : F;
  neg_powers_of_h : list F
}.

(** [a / b] as [setup] uses it: dividing by zero raises
    [ZeroDivisionError], as Python does on its numbers and as is assumed of
    the elements of [Field], a class the source imports. *)
Definition py_div (a b : F) : outcome F :=
  if b ==? Fzero then Raise ZeroDivisionError else Ret (a / b).

(** [KZG10Commitment.setup]; the two generators are given together or
    not at all (the code tests [g1_generator] only), and a secret that is
    supplied is a field element. *)
Definition setup (max_degree : Z) (produce_g2_powers : bool)
           (secret_symbol : option F) (generators : option (F * F)) (r : rng)
  : outcome (Params * rng) :=
  let '(g, h, r) :=
    match generators with
    | None =>
        let '(g, r) := random_element r in
        let '(h, r) := random_element r in
        (g, h, r)
    | Some (g1_generator, g2_generator) => (g1_generator, g2_generator, r)
    end in
  let '(s, r) :=
    match secret_symbol with
    | None => random_element r
    | Some secret => (secret, r)
    end in
  let '(gamma_g, r) := random_element r in
  let powers_of_s :=
    map (fun i => Fpow s (Z.to_nat i)) (range (max_degree + 2)) in
  powers_of_g <-
    comprehension (fun i => si <- py_get powers_of_s i ;; Ret (g * si))
                  (range (max_degree + 1)) ;;
  powers_of_gamma_g <-
    comprehension (fun i => si <- py_get powers_of_s i ;; Ret (gamma_g * si))
                  (range (max_degree + 2)) ;;
  let neg_powers_of_h := [] in
  neg_powers_of_h <-
    (if produce_g2_powers then
       let neg_powers_of_beta := [Fone] in
       cur <- py_div Fone s ;;
       '(neg_powers_of_beta, _) <-
         for_each (fun '(acc, cur) (_ : Z) =>
                     next <- py_div cur s ;; Ret (acc ++ [cur], next))
                  (range max_degree) (neg_powers_of_beta, cur) ;;
       comprehension
         (fun i => bi <- py_get neg_powers_of_beta i ;; Ret (h * bi))
         (range (max_degree + 1))
     else Ret neg_powers_of_h) ;;
  Ret ({| powers_of_g := powers_of_g;
          powers_of_gamma_g := powers_of_gamma_g;
          h := h;
          beta_h := s * h;
          neg_powers_of_h := neg_powers_of_h |}, r).

(** The parameters [setup] builds from generators [g], [gamma_g], [h] and
    secret [s] (a predicate used to state what [setup] returns). *)
Definition srs_of (p : Params) (g gamma_g s h0 : F) (max_degree : Z) : Prop :=
  powers_of_g p
  = map (fun j => g * Fpow s j) (seq 0 (Z.to_nat (max_degree + 1)))
  /\ powers_of_gamma_g p
     = map (fun j => gamma_g * Fpow s j) (seq 0 (Z.to_nat (max_degree + 2)))
  /\ h p = h0
  /\ beta_h p = s * h0.

(** *** [class KZG10Commitment] *)
Record KZG10Commitment : Type := {
  G1 : DummyGroup;
  G2 : DummyGroup;
  max_degree : Z;
  hiding_bound : option Z;
  debug : bool;
  params : Params
}.

(** [KZG10Commitment.__init__]: [self.params = self.setup()]. *)
Definition KZG10Commitment_init (G1 G2 : DummyGroup) (max_degree : Z)
           (hiding_bound : option Z) (debug : bool) (r : rng)
  : outcome (KZG10Commitment * rng) :=
  '(params, r) <- setup max_degree false None None r ;;
  Ret ({| G1 := G1; G2 := G2; max_degree := max_degree;
          hiding_bound := hiding_bound; debug := debug;
          params := params |}, r).

(** [skip_leading_zeros_and_convert_to_bigints(p)]: its loop
    [while num_leading_zeros < len(coeffs) and coeffs[num_leading_zeros] == 0],
    by recursion on the coefficients still ahead, then the slice. *)
Fixpoint count_leading_zeros (coeffs : list F) (num_leading_zeros : nat) : nat :=
  match coeffs with
  | c :: t =>
      if c ==? Fzero then count_leading_zeros t (S num_leading_zeros)
      else num_leading_zeros
  | [] => num_leading_zeros
  end.

Definition skip_leading_zeros_and_convert_to_bigints (p : UniPolynomial)
  : nat * list F :=
  let num_leading_zeros := count_leading_zeros (coeffs p) 0 in
  (num_leading_zeros, skipn num_leading_zeros (coeffs p)).

(** The loop [while UniPolynomial(random_ints).degree == 0: random_ints =
    [random_element() for _ in range(hiding_bound + 1)]] of [commit]. *)
Fixpoint resample (fuel : nat) (hiding_bound : Z) (random_ints : list F)
         (r : rng) : outcome (list F * rng) :=
  if (degree (mkPoly random_ints) =? 0)%Z then
    match fuel with
    | O => NoFuel
    | S fuel' =>
        let '(random_ints, r) :=
          random_elements (Z.to_nat (hiding_bound + 1)) r in
        resample fuel' hiding_bound random_ints r
    end
  else Ret (random_ints, r).

(** The list drawn by iteration [k] of that loop, started on [r]. *)
Fixpoint nth_block (n k : nat) (r : rng) : list F :=
  match k with
  | O => fst (random_elements n r)
  | S k' => nth_block n k' (snd (random_elements n r))
  end.

(** [isinstance(msm_bigint_basic(bases, bigints), Field)]: the result
    starts as the Python integer [0] and becomes a [Field] element with the
    first term added, so it is one exactly when [zip(bases, bigints)] is not
    empty. *)
Definition msm_is_Field (bases bigints : list F) : bool :=
  match combine bases bigints with
  | [] => false
  | _ :: _ => true
  end.

(** [KZG10Commitment.commit].  The assertions [isinstance(commitment, Field)]
    made under [debug] are kept: [commitment_is_Field] follows the class of
    the value bound to [commitment].  The first sum over
    [zip(powers_of_g, coeffs)] is computed and then overwritten, as in the
    source. *)
Definition commit (self : KZG10Commitment) (polynomial : UniPolynomial)
           (fuel : nat) (r : rng) : outcome (Commitment * list F * rng) :=
  let num_coefficients := (degree polynomial + 1)%Z in
  let num_powers := Z.of_nat (length (powers_of_g (params self))) in
  _ <- py_assert (num_coefficients <=? num_powers)%Z "Too many coefficients" ;;
  let commitment := Fzero in
  let commitment :=
    fold_left (fun commitment '(gi, coeff) => commitment + coeff * gi)
              (combine (powers_of_g (params self)) (coeffs polynomial))
              commitment in
  let commitment_is_Field := true in
  _ <- (if debug self then py_assert commitment_is_Field "commitment: "
        else Ret tt) ;;
  let '(num_leading_zeros, plain_coeffs) :=
    skip_leading_zeros_and_convert_to_bigints polynomial in
  commitment <-
    msm_bigint negation_is_cheap
               (skipn num_leading_zeros (powers_of_g (params self)))
               plain_coeffs ;;
  let commitment_is_Field :=
    msm_is_Field (skipn num_leading_zeros (powers_of_g (params self)))
                 plain_coeffs in
  _ <- (if debug self then py_assert commitment_is_Field EmptyString
        else Ret tt) ;;
  let random_ints := [] in
  '(commitment, commitment_is_Field, random_ints, r) <-
    match hiding_bound self with
    | Some bound =>
        '(random_ints, r) <- resample fuel bound random_ints r ;;
        _ <- (if debug self then
                py_assert (0 <? degree (mkPoly random_ints))%Z
                          "Degree of random poly is zero"
              else Ret tt) ;;
        let hiding_poly_degree := (Z.of_nat (length random_ints) - 1)%Z in
        let num_powers := Z.of_nat (length (powers_of_gamma_g (params self))) in
        _ <- py_assert (negb (bound =? 0)%Z) "Hiding bound is zero" ;;
        _ <- py_assert (hiding_poly_degree <? num_powers)%Z
                       "Hiding bound is too large" ;;
        random_commitment <-
          msm_bigint negation_is_cheap (powers_of_gamma_g (params self))
                     random_ints ;;
        let random_commitment_is_Field :=
          msm_is_Field (powers_of_gamma_g (params self)) random_ints in
        Ret (commitment + random_commitment,
             commitment_is_Field || random_commitment_is_Field,
             random_ints, r)
    | None => Ret (commitment, commitment_is_Field, random_ints, r)
    end ;;
  _ <- (if debug self then py_assert commitment_is_Field EmptyString
        else Ret tt) ;;
  Ret ({| group := G1 self; value := commitment |}, random_ints, r).

(** A proof: the dictionary [{'w': w, 'random_v': random_v}]. *)
Record OpeningProof : Type := { w : F; random_v : option F }.

(** [KZG10Commitment.compute_witness_polynomial] *)
Definition compute_witness_polynomial (self : KZG10Commitment)
           (polynomial : UniPolynomial) (point : F) (random_ints : list F)
  : outcome (UniPolynomial * option UniPolynomial) :=
  '(witness_polynomial, _pz) <-
    poly_division_by_linear_divisor polynomial point ;;
  let random_witness_polynomial := None in
  match hiding_bound self with
  | Some _ =>
      let random_poly := mkPoly random_ints in
      _ <- (if debug self then
              py_assert (0 <? degree random_poly)%Z
                        "Degree of random poly is zero"
            else Ret tt) ;;
      '(random_witness_polynomial, _pr) <-
        poly_division_by_linear_divisor (mkPoly random_ints) point ;;
      Ret (witness_polynomial, Some random_witness_polynomial)
  | None => Ret (witness_polynomial, random_witness_polynomial)
  end.

(** [KZG10Commitment.open_with_witness_polynomial] *)
Definition open_with_witness_polynomial (self : KZG10Commitment) (point : F)
           (random_ints : list F) (witness_polynomial : UniPolynomial)
           (hiding_witness_polynomial : option UniPolynomial)
  : outcome OpeningProof :=
  _ <- py_assert (degree witness_polynomial + 1
                  <? Z.of_nat (length (powers_of_g (params self))))%Z
                 "Too many coefficients" ;;
  let '(num_leading_zeros, witness_coeffs) :=
    skip_leading_zeros_and_convert_to_bigints witness_polynomial in
  w <- msm_bigint negation_is_cheap
                  (skipn num_leading_zeros (powers_of_g (params self)))
                  witness_coeffs ;;
  let random_v := None in
  match hiding_witness_polynomial with
  | Some hiding_witness =>
      let blinding_p := mkPoly random_ints in
      let random_v := evaluate blinding_p point in
      hw <- msm_bigint negation_is_cheap (powers_of_gamma_g (params self))
                       (coeffs hiding_witness) ;;
      let w := w + hw in
      Ret {| w := w; random_v := Some random_v |}
  | None => Ret {| w := w; random_v := random_v |}
  end.

(** [KZG10Commitment.open].  Under [debug] the first assertion,
    [isinstance(witness_poly, UniPolynomial)], holds by typing; the second,
    [isinstance(hiding_witness_poly, UniPolynomial)], fails on [None]. *)
Definition open (self : KZG10Commitment) (polynomial : UniPolynomial)
           (point : F) (random_ints : list F) : outcome OpeningProof :=
  _ <- py_assert (degree polynomial + 1
                  <? Z.of_nat (length (powers_of_g (params self))))%Z
                 "Too many coefficients" ;;
  '(witness_poly, hiding_witness_poly) <-
    compute_witness_polynomial self polynomial point random_ints ;;
  _ <- (if debug self then
          py_assert (match hiding_witness_poly with Some _ => true | None => false end)
                    "isinstance(hiding_witness_poly, UniPolynomial)"
        else Ret tt) ;;
  open_with_witness_polynomial self point random_ints witness_poly
                               hiding_witness_poly.

(** [KZG10Commitment.check] *)
Definition check (self : KZG10Commitment) (comm : Commitment) (point value : F)
           (proof : OpeningProof) : outcome bool :=
  g0 <- py_get (powers_of_g (params self)) 0 ;;
  let inner := value_of comm - g0 * value in
  inner <-
    match hiding_bound self with
    | Some _ =>
        gamma0 <- py_get (powers_of_gamma_g (params self)) 0 ;;
        match random_v proof with
        | Some rv => Ret (inner - gamma0 * rv)
        | None => Raise (TypeError "unsupported operand: NoneType")
        end
    | None => Ret inner
    end ;;
  let lhs := pairing inner (h (params self)) in
  let rhs := pairing (w proof)
                     (beta_h (params self) - h (params self) * point) in
  Ret (value0 lhs =? value0 rhs)%Z.

(** The variables of the loop of [batch_check]. *)
Record BatchState : Type := {
  total_c : Z;
  total_w : F;
  randomizer : Z;
  g_multiplier : F;
  gamma_g_multiplier : F;
  source : rng
}.

(** One iteration of [for c, z, v, proof in zip(...)] in [batch_check].
    The reads [c.value.value[0]] and [c.value[0]] are made on [Field]
    elements; on the Python integer [0] that [msm_bigint_basic] returns for
    an empty [zip] the code raises [AttributeError], which this model, with
    one type for both zeros, does not separate: what is proved of
    [batch_check] is stated of the calls that return. *)
Definition batch_body (self : KZG10Commitment) (st : BatchState)
           (claim : Commitment * F * F * OpeningProof) : outcome BatchState :=
  let '(c, z, v, proof) := claim in
  let c := z * w proof + of_int (value0 (value c)) in
  let g_multiplier := g_multiplier st + of_int (randomizer st) * v in
  gamma_g_multiplier <-
    match hiding_bound self with
    | Some _ =>
        match random_v proof with
        | Some rv => Ret (gamma_g_multiplier st + of_int (randomizer st) * rv)
        | None => Raise (TypeError "unsupported operand: NoneType")
        end
    | None => Ret (gamma_g_multiplier st)
    end ;;
  let total_c := (total_c st + value0 c * randomizer st)%Z in
  let total_w := total_w st + w proof * of_int (randomizer st) in
  let '(randomizer, r) := randint 0 (Z.shiftl 1 128) (source st) in
  Ret {| total_c := total_c; total_w := total_w; randomizer := randomizer;
         g_multiplier := g_multiplier;
         gamma_g_multiplier := gamma_g_multiplier; source := r |}.

Definition batch_init (r : rng) : BatchState :=
  {| total_c := 0; total_w := Fzero; randomizer := 1;
     g_multiplier := Fzero; gamma_g_multiplier := Fzero; source := r |}.

Definition zip4 {A B C D : Type} (a : list A) (b : list B) (c : list C)
           (d : list D) : list (A * B * C * D) :=
  combine (combine (combine a b) c) d.

(** The variables of that loop when claim number [i] is about to be
    processed: [randomizer] is then the coefficient of claim [i]. *)
Definition batch_state (self : KZG10Commitment)
           (claims : list (Commitment * F * F * OpeningProof)) (r : rng)
           (i : nat) : outcome BatchState :=
  for_each (batch_body self) (firstn i claims) (batch_init r).

(** A claim [(commitment, point, value, proof)] is a valid opening for the
    secret [s] when [w * (s - point)] is the commitment minus [g * value]
    (and minus [gamma_g * random_v] under hiding, where the proof then
    carries its blinding value): the equation the pairing check tests. *)
Definition valid_opening (self : KZG10Commitment) (g gamma_g s : F)
           (claim : Commitment * F * F * OpeningProof) : Prop :=
  let '(c, z, v, proof) := claim in
  match hiding_bound self with
  | Some _ =>
      exists rv, random_v proof = Some rv
                 /\ w proof * (s - z) = value c - g * v - gamma_g * rv
  | None => w proof * (s - z) = value c - g * v
  end.

(** [KZG10Commitment.batch_check] *)
Definition batch_check (self : KZG10Commitment) (commitments : list Commitment)
           (points values : list F) (proofs : list OpeningProof) (r : rng)
  : outcome (bool * rng) :=
  st <- for_each (batch_body self) (zip4 commitments points values proofs)
                 (batch_init r) ;;
  g0 <- py_get (powers_of_g (params self)) 0 ;;
  let total_c := of_int (total_c st) - g0 * g_multiplier st in
  total_c <-
    match hiding_bound self with
    | Some _ =>
        gamma0 <- py_get (powers_of_gamma_g (params self)) 0 ;;
        Ret (total_c - gamma0 * gamma_g_multiplier st)
    | None => Ret total_c
    end ;;
  Ret (pairing (total_w st) (beta_h (params self))
       ==? pairing total_c (h (params self)), source st).

End KZG.

(** ** A concrete instance: the integers, used to run the code on inputs. *)

#[export] Instance Z_field : FieldOps Z :=
  {| Fzero := 0; Fone := 1; Fadd := Z.add; Fmul := Z.mul; Fsub := Z.sub;
     Fopp := Z.opp; Fdiv := Z.div; Feqb := Z.eqb; value0 := fun z => z |}.

#[export] Instance Z_group : DummyGroupOps Z :=
  {| group_exp := fun a k => a * k; group_scalar_mul := fun a k => a * k;
     pairing := Z.mul |}.

(** A tape that repeats the entries of [l]. *)
Definition cyclic (l : list Z) (n : nat) : Z := nth (n mod length l) l 0.

Definition tape_rng (fs ints : list Z) : rng :=
  {| field_tape := cyclic fs; int_tape := cyclic ints;
     field_pos := 0; int_pos := 0 |}.

(** Inputs on which the code is run below. *)
Definition demo_G1 : DummyGroup := {| group_id := 1 |}.
Definition demo_G2 : DummyGroup := {| group_id := 2 |}.
Definition demo_rng : rng := tape_rng [2; 3; 5; 7; 0; 0; 4; 1; 1] [5].
Definition demo_poly : UniPolynomial := mkPoly [1; 2; 3].

(** The scheme [KZG10Commitment(G1, G2, 3, hiding_bound)] built from
    [demo_rng]: generators 2 and 3, secret 5, blinding generator 7. *)
Definition demo_params : Params :=
  {| powers_of_g := [2; 10; 50; 250];
     powers_of_gamma_g := [7; 35; 175; 875; 4375];
     h := 3; beta_h := 15; neg_powers_of_h := [] |}.

Definition demo_kzg (hiding_bound : option Z) (debug : bool) : KZG10Commitment :=
  {| G1 := demo_G1; G2 := demo_G2; max_degree := 3;
     hiding_bound := hiding_bound; debug := debug; params := demo_params |}.

(** [demo_rng] after the four draws of [setup]. *)
Definition demo_rng_after_setup : rng :=
  {| field_tape := field_tape demo_rng; int_tape := int_tape demo_rng;
     field_pos := 4; int_pos := 0 |}.

(** The commitment to [demo_poly] under hiding bound 2 (blinding
    coefficients 0, 0, 4) and its opening at the point 4. *)
Definition demo_comm : Commitment := {| group := demo_G1; value := 872 |}.
Definition demo_proof : OpeningProof := {| w := 310; random_v := Some 64 |}.

Definition demo_claims : list (Commitment * Z * Z * OpeningProof) :=
  [(demo_comm, 4, 57, demo_proof); (demo_comm, 4, 57, demo_proof)].

(** A tape whose first list of three draws has degree 0 and whose second
    has degree 2. *)
Definition demo_rng_resample : rng := tape_rng [1; 0; 0; 0; 0; 4] [5].

(** * Properties *)

Lemma bind_Ret {A B : Type} (m : outcome A) (k : A -> outcome B) (b : B) :
  bind m k = Ret b -> exists a, m = Ret a /\ k a = Ret b.
Proof.
  destruct m as [a | e | ]; simpl; intros H; try discriminate.
  exists a; split; [reflexivity | exact H].
Qed.

Lemma range_length (n : Z) : length (range n) = Z.to_nat n.
Proof. unfold range. now rewrite length_map, length_seq. Qed.

Section PolynomialFacts.
Context {F : Type} {ops : FieldOps F} {laws : FieldLaws F}.
Local Open Scope F_scope.

Add Ring F_is_ring : F_ring.

(** Horner form of [eval_from]. *)
Lemma eval_from_scale (l : list F) (x xi : F) :
  eval_from l x xi = xi * eval_from l x Fone.
Proof.
  revert xi. induction l as [| c t IH]; intros xi; simpl.
  - ring.
  - rewrite (IH (xi * x)), (IH (Fone * x)). ring.
Qed.

Lemma eval_cons (c : F) (t : list F) (x : F) :
  eval_from (c :: t) x Fone = c + x * eval_from t x Fone.
Proof. simpl. rewrite (eval_from_scale t x (Fone * x)). ring. Qed.

Lemma eval_from_app (l1 l2 : list F) (x xi : F) :
  eval_from (l1 ++ l2) x xi
  = eval_from l1 x xi + eval_from l2 x (xi * Fpow x (length l1)).
Proof.
  revert xi. induction l1 as [| c t IH]; intros xi; simpl.
  - replace (xi * Fone) with xi by ring. ring.
  - rewrite IH. replace (xi * x * Fpow x (length t)) with (xi * (x * Fpow x (length t))) by ring.
    ring.
Qed.

(** One step of synthetic division, seen on the reconstructed polynomial:
    pushing the running remainder [a] on the quotient and folding the next
    coefficient [c] into the remainder prepends [c]. *)
Lemma reconstruct_step (q : list F) (d a c : F) :
  reconstruct (a :: q) d (a * d + c) = c :: reconstruct q d a.
Proof.
  unfold reconstruct. simpl.
  destruct (poly_mul q [- d; Fone]) as [| m M]; simpl.
  - f_equal; [ring | f_equal; ring].
  - f_equal; [ring |].
    f_equal; [ring |]. now destruct M.
Qed.

Lemma list_update_last (pre : list F) (x v : F) (post : list F) :
  list_update (pre ++ x :: post) (length pre) v = pre ++ v :: post.
Proof. induction pre as [| y pre IH]; simpl; [reflexivity | now rewrite IH]. Qed.

Lemma division_loop (d : F) (t : list F) :
  forall (pre filled : list F) (r : F) (i : nat),
    length pre = length t ->
    i = S (length filled) ->
    for_each (division_body d)
             (combine (map Z.of_nat (seq i (length t))) t) (pre ++ filled, r)
    = Ret (division_run d t filled r).
Proof.
  induction t as [| c t IH]; intros pre filled r i Hpre Hi; simpl.
  - destruct pre; [reflexivity | discriminate].
  - destruct (List.exists_last (l := pre)) as [pre' [x Hx]].
    { intros ->. discriminate. }
    subst pre. rewrite length_app in Hpre. simpl in Hpre.
    replace (Z.of_nat i =? 0)%Z with false by (symmetry; apply Z.eqb_neq; lia).
    unfold py_set, py_index.
    rewrite !length_app. simpl length.
    replace (- Z.of_nat i <? 0)%Z with true by (symmetry; apply Z.ltb_lt; lia).
    set (j := (- Z.of_nat i + Z.of_nat (length pre' + 1 + length filled))%Z).
    assert (Hj : j = Z.of_nat (length pre')) by (unfold j; lia).
    replace ((0 <=? j) && (j <? Z.of_nat (length pre' + 1 + length filled)))%bool
      with true
      by (symmetry; apply andb_true_iff; split;
          [apply Z.leb_le | apply Z.ltb_lt]; lia).
    simpl. rewrite Hj, Nat2Z.id, <- app_assoc. simpl.
    rewrite list_update_last.
    apply (IH pre' (r :: filled) (r * d + c) (S i)); simpl; lia.
Qed.

Lemma division_run_length (d : F) (t filled : list F) (r : F) :
  length (fst (division_run d t filled r)) = (length t + length filled)%nat.
Proof.
  revert filled r. induction t as [| c t IH]; intros filled r; simpl.
  - reflexivity.
  - rewrite IH. simpl. lia.
Qed.

Lemma division_run_reconstruct (d : F) (t filled : list F) (r : F) :
  reconstruct (fst (division_run d t filled r)) d
              (snd (division_run d t filled r))
  = rev t ++ reconstruct filled d r.
Proof.
  revert filled r. induction t as [| c t IH]; intros filled r; simpl.
  - reflexivity.
  - rewrite IH, reconstruct_step, <- app_assoc. reflexivity.
Qed.

Lemma eval_top_fold (l : list F) (x xi c r : F) :
  eval_from (l ++ [c; r]) x xi = eval_from (l ++ [r * x + c]) x xi.
Proof.
  revert xi. induction l as [| a l IH]; intros xi; simpl.
  - ring.
  - now rewrite IH.
Qed.

Lemma division_run_remainder (d : F) (t filled : list F) (r : F) :
  snd (division_run d t filled r) = eval_from (rev t ++ [r]) d Fone.
Proof.
  revert filled r. induction t as [| c t IH]; intros filled r; simpl.
  - ring.
  - rewrite IH, <- app_assoc. simpl. now rewrite eval_top_fold.
Qed.

(** The loop of [division_by_linear_divisor] in closed form. *)
Lemma division_by_linear_divisor_run (coeffs : list F) (d : F) (top : F)
      (t : list F) :
  rev coeffs = top :: t ->
  t <> [] ->
  division_by_linear_divisor coeffs d = Ret (division_run d t [] top).
Proof.
  intros Hrev Ht.
  assert (Hlen : length coeffs = S (length t)).
  { rewrite <- length_rev, Hrev. reflexivity. }
  unfold division_by_linear_divisor.
  replace (1 <? Z.of_nat (length coeffs))%Z with true
    by (symmetry; apply Z.ltb_lt; destruct t; [contradiction | simpl in Hlen; lia]).
  simpl. unfold enumerate, range. rewrite length_rev, Hrev, Nat2Z.id, Hlen.
  simpl. replace (length t - 0)%nat with (length t) by lia.
  rewrite <- (app_nil_r (repeat Fzero (length t))).
  apply division_loop; [apply repeat_length | reflexivity].
Qed.

(** *** Trailing zero coefficients and the degree *)

#[local] Arguments all_zero : simpl never.

Lemma all_zero_cons (c : F) (t : list F) :
  all_zero (c :: t) = true <-> c = Fzero /\ all_zero t = true.
Proof.
  unfold all_zero. simpl. rewrite andb_true_iff, Feqb_eq. reflexivity.
Qed.

Lemma all_zero_skipn (l : list F) (n : nat) :
  all_zero l = true -> all_zero (skipn n l) = true.
Proof.
  revert n. induction l as [| c t IH]; intros n H.
  - now rewrite skipn_nil.
  - destruct n; [exact H |]. simpl. apply IH.
    now apply all_zero_cons in H.
Qed.

Lemma all_zero_eval (l : list F) (x xi : F) :
  all_zero l = true -> eval_from l x xi = Fzero.
Proof.
  revert xi. induction l as [| c t IH]; intros xi H; simpl.
  - reflexivity.
  - apply all_zero_cons in H. destruct H as [-> H]. rewrite IH by exact H. ring.
Qed.

(** Every coefficient above the degree is zero. *)
Lemma degree_of_tail (l : list F) (n : nat) :
  (degree_of l < n)%nat -> all_zero (skipn n l) = true.
Proof.
  revert n. induction l as [| c t IH]; intros n H.
  - now rewrite skipn_nil.
  - destruct n; [lia |]. simpl in *.
    destruct (all_zero t) eqn:E.
    + now apply all_zero_skipn.
    + apply IH. lia.
Qed.

(** Conversely, zero coefficients above index [k] bound the degree. *)
Lemma degree_of_bound (l : list F) (k : nat) :
  all_zero (skipn (S k) l) = true -> (degree_of l <= k)%nat.
Proof.
  revert k. induction l as [| c t IH]; intros k H; simpl in *.
  - lia.
  - destruct (all_zero t) eqn:E; [lia |].
    destruct k as [| k].
    + simpl in H. congruence.
    + apply IH in H. lia.
Qed.

Lemma eval_firstn (l : list F) (n : nat) (x xi : F) :
  all_zero (skipn n l) = true ->
  eval_from (firstn n l) x xi = eval_from l x xi.
Proof.
  intros H. rewrite <- (firstn_skipn n l) at 2.
  rewrite eval_from_app, (all_zero_eval (skipn n l)) by exact H. ring.
Qed.

(** *** The division loop read from the low end *)

Lemma division_run_app (d : F) (t1 t2 filled : list F) (r : F) :
  division_run d (t1 ++ t2) filled r
  = division_run d t2 (fst (division_run d t1 filled r))
                 (snd (division_run d t1 filled r)).
Proof.
  revert filled r. induction t1 as [| c t1 IH]; intros filled r; simpl.
  - reflexivity.
  - apply IH.
Qed.

Lemma division_run_horner (d : F) (l filled : list F) (r : F) :
  division_run d (rev l) filled r = horner d l (filled, r).
Proof.
  induction l as [| c t IH]; simpl.
  - reflexivity.
  - rewrite division_run_app, IH. simpl.
    now destruct (horner d t (filled, r)).
Qed.

Lemma horner_all_zero (d : F) (l : list F) (top : F) :
  all_zero (l ++ [top]) = true ->
  all_zero (fst (horner d l ([], top))) = true
  /\ snd (horner d l ([], top)) = Fzero.
Proof.
  induction l as [| c t IH]; simpl; intros H.
  - apply all_zero_cons in H. destruct H as [-> _]. now split.
  - apply all_zero_cons in H. destruct H as [-> H].
    destruct (IH H) as [Hq Hr].
    destruct (horner d t ([], top)) as [q r]. simpl in *. subst r.
    split; [apply all_zero_cons; now split | ring].
Qed.

(** Zero coefficients from index [S m] up give a quotient that is zero
    from index [m] up. *)
Lemma horner_tail (d : F) (l : list F) (top : F) (m : nat) :
  all_zero (skipn (S m) (l ++ [top])) = true ->
  all_zero (skipn m (fst (horner d l ([], top)))) = true.
Proof.
  revert m. induction l as [| c t IH]; intros m H.
  - simpl. now rewrite skipn_nil.
  - simpl in H.
    destruct m as [| m].
    + simpl in H. destruct (horner_all_zero d t top H) as [Hq Hr].
      simpl. destruct (horner d t ([], top)) as [q r]. simpl in *. subst r.
      apply all_zero_cons. now split.
    + specialize (IH m H). simpl.
      destruct (horner d t ([], top)) as [q r]. simpl in *. exact IH.
Qed.

(** What [division_by_linear_divisor] returns, in the three readings. *)
Lemma division_returns (coeffs : list F) (d : F) :
  (2 <= length coeffs)%nat ->
  exists (l : list F) (top : F),
    coeffs = l ++ [top]
    /\ division_by_linear_divisor coeffs d = Ret (horner d l ([], top))
    /\ horner d l ([], top) = division_run d (rev l) [] top.
Proof.
  intros Hlen.
  destruct (List.exists_last (l := coeffs)) as [l [top Hc]].
  { intros ->. simpl in Hlen. lia. }
  exists l, top. split; [exact Hc |].
  rewrite <- division_run_horner. split; [| reflexivity].
  apply division_by_linear_divisor_run.
  - rewrite Hc, rev_app_distr. reflexivity.
  - intros E. apply (f_equal (@length F)) in E. rewrite length_rev in E.
    rewrite Hc, length_app in Hlen. simpl in *. lia.
Qed.

(** C3 — Division identity.  For a coefficient list with at least two
    entries (a polynomial written with degree at least 1) and every [d],
    [division_by_linear_divisor] returns a quotient with one coefficient
    less and a remainder such that [quotient(x) * (x - d) + remainder] is
    the input coefficient by coefficient, and the remainder is the input
    evaluated at [d]. *)
Theorem division_identity (coeffs : list F) (d : F) :
  (2 <= length coeffs)%nat ->
  exists (quotient : list F) (remainder : F),
    division_by_linear_divisor coeffs d = Ret (quotient, remainder)
    /\ length quotient = (length coeffs - 1)%nat
    /\ reconstruct quotient d remainder = coeffs
    /\ remainder = evaluate (mkPoly coeffs) d.
Proof.
  intros Hlen.
  destruct (division_returns coeffs d Hlen) as (l & top & Hc & Hdiv & Hrun).
  exists (fst (horner d l ([], top))), (snd (horner d l ([], top))).
  split; [now rewrite Hdiv, <- surjective_pairing |].
  rewrite Hrun. split; [| split].
  - rewrite division_run_length, length_rev, Hc, length_app. simpl. lia.
  - rewrite division_run_reconstruct, rev_involutive, Hc. reflexivity.
  - rewrite division_run_remainder, rev_involutive, Hc. reflexivity.
Qed.

End PolynomialFacts.

#[export] Instance Z_laws : FieldLaws Z.
Proof.
  split.
  - exact Zth.
  - intros a b. apply Z.eqb_eq.
Qed.

Lemma division_identity_witness :
  (2 <= length [1; 2; 3])%nat
  /\ exists (quotient : list Z) (remainder : Z),
      division_by_linear_divisor [1; 2; 3] 5 = Ret (quotient, remainder)
      /\ length quotient = (length [1; 2; 3] - 1)%nat
      /\ reconstruct quotient 5 remainder = [1; 2; 3]
      /\ remainder = evaluate (mkPoly [1; 2; 3]) 5.
Proof.
  split.
  - simpl. lia.
  - apply (division_identity (laws := Z_laws) [1; 2; 3] 5). simpl. lia.
Defined.

(** ** Multi-scalar multiplication over the field *)

Section MsmFacts.
Context {F : Type} {ops : FieldOps F} {gops : DummyGroupOps F}
        {laws : FieldLaws F}.
Local Open Scope F_scope.

Add Ring F_is_ring_msm : F_ring.

#[local] Arguments all_zero : simpl never.

Lemma msm_fold_acc (l : list (F * F)) (acc : F) :
  fold_left (fun result '(base, scalar) => result + base * scalar) l acc
  = acc + fold_left (fun result '(base, scalar) => result + base * scalar)
                    l Fzero.
Proof.
  revert acc. induction l as [| [b c] l IH]; intros acc; simpl.
  - ring.
  - rewrite (IH (acc + b * c)), (IH (Fzero + b * c)). ring.
Qed.

Lemma msm_nil_l (cs : list F) : msm_bigint_basic (@nil F) cs = Fzero.
Proof. reflexivity. Qed.

Lemma msm_nil_r (bs : list F) : msm_bigint_basic bs (@nil F) = Fzero.
Proof. unfold msm_bigint_basic. now destruct bs. Qed.

Lemma msm_cons (b : F) (bs : list F) (c : F) (cs : list F) :
  msm_bigint_basic (b :: bs) (c :: cs) = b * c + msm_bigint_basic bs cs.
Proof.
  unfold msm_bigint_basic. simpl. rewrite msm_fold_acc. ring.
Qed.


Lemma count_leading_zeros_shift (cs : list F) (k : nat) :
  count_leading_zeros cs (S k) = S (count_leading_zeros cs k).
Proof.
  revert k. induction cs as [| c t IH]; intros k; simpl.
  - reflexivity.
  - destruct (c ==? Fzero); [apply IH | reflexivity].
Qed.

(** Skipping the leading zero coefficients, and as many bases, leaves the
    sum unchanged. *)
Lemma msm_skip_leading_zeros (bs cs : list F) :
  msm_bigint_basic (skipn (count_leading_zeros cs 0) bs)
                   (skipn (count_leading_zeros cs 0) cs)
  = msm_bigint_basic bs cs.
Proof.
  revert bs. induction cs as [| c t IH]; intros bs; simpl.
  - reflexivity.
  - destruct (c ==? Fzero) eqn:E; [| reflexivity].
    apply Feqb_eq in E. subst c. rewrite count_leading_zeros_shift.
    destruct bs as [| b bs].
    + rewrite skipn_nil. reflexivity.
    + simpl skipn. rewrite IH, msm_cons. ring.
Qed.

(** Against the powers [g * s^k, ..., g * s^(k+n-1)] the sum is [g] times
    the evaluation at [s] of the first [n] coefficients. *)
Lemma msm_powers (g s : F) (n k : nat) (cs : list F) :
  msm_bigint_basic (map (fun i => g * Fpow s i) (seq k n)) cs
  = g * eval_from (firstn n cs) s (Fpow s k).
Proof.
  revert k cs. induction n as [| n IH]; intros k cs.
  - simpl. rewrite msm_nil_l. ring.
  - destruct cs as [| c cs].
    + rewrite msm_nil_r. simpl. ring.
    + simpl seq. simpl map. rewrite msm_cons, IH. simpl.
      replace (Fpow s k * s) with (s * Fpow s k) by ring. ring.
Qed.

End MsmFacts.

(** ** Indexing and list comprehensions *)

Lemma py_get_in_range {A : Type} (l : list A) (i : Z) (d : A) :
  0 <= i < Z.of_nat (length l) ->
  py_get l i = Ret (nth (Z.to_nat i) l d).
Proof.
  intros Hi. unfold py_get, py_index.
  replace (i <? 0) with false by (symmetry; apply Z.ltb_ge; lia).
  replace ((0 <=? i) && (i <? Z.of_nat (length l)))%bool with true
    by (symmetry; apply andb_true_iff; split;
        [apply Z.leb_le | apply Z.ltb_lt]; lia).
  simpl. rewrite (nth_error_nth' l d) by lia. reflexivity.
Qed.

Lemma comprehension_map {A B : Type} (f : A -> outcome B) (g : A -> B)
      (l : list A) :
  Forall (fun x => f x = Ret (g x)) l ->
  comprehension f l = Ret (map g l).
Proof.
  induction 1 as [| x l Hx _ IH]; simpl.
  - reflexivity.
  - rewrite Hx, IH. reflexivity.
Qed.

Lemma range_bounds (n i : Z) : In i (range n) -> 0 <= i < n.
Proof.
  unfold range. rewrite in_map_iff. intros [k [<- Hk]].
  apply in_seq in Hk. lia.
Qed.

(** [[k(l[i]) for i in range(n)]] with every index inside [l]. *)
Lemma comprehension_get_range {A B : Type} (l : list A) (k : A -> B) (d : A)
      (n : Z) :
  (Z.to_nat n <= length l)%nat ->
  comprehension (fun i => x <- py_get l i ;; Ret (k x)) (range n)
  = Ret (map (fun j => k (nth j l d)) (seq 0 (Z.to_nat n))).
Proof.
  intros Hn.
  rewrite (comprehension_map _ (fun i => k (nth (Z.to_nat i) l d))).
  - unfold range. rewrite map_map. f_equal. apply map_ext.
    intros j. now rewrite Nat2Z.id.
  - apply Forall_forall. intros i Hi. apply range_bounds in Hi.
    rewrite (py_get_in_range l i d) by lia. reflexivity.
Qed.

Lemma map_nth_seq {A B : Type} (f : nat -> A) (k : A -> B) (d : A) (m n : nat) :
  (n <= m)%nat ->
  map (fun j => k (nth j (map f (seq 0 m)) d)) (seq 0 n)
  = map (fun j => k (f j)) (seq 0 n).
Proof.
  intros Hn. apply map_ext_in. intros j Hj. apply in_seq in Hj.
  f_equal.
  rewrite (nth_indep _ d (f 0%nat)) by (rewrite length_map, length_seq; lia).
  rewrite (map_nth f (seq 0 m) 0%nat j), seq_nth by lia. reflexivity.
Qed.

(** ** The scheme *)

Section KzgFacts.
Context {F : Type} {ops : FieldOps F} {gops : DummyGroupOps F}
        {laws : FieldLaws F} {glaws : DummyGroupLaws F}.
Local Open Scope F_scope.

Add Ring F_is_ring_kzg : F_ring.

#[local] Arguments all_zero : simpl never.

(** The powers [base * s^0, ..., base * s^(n-1)]. *)
Lemma powers_nth (base s : F) (n i : nat) :
  (i < n)%nat ->
  nth_error (map (fun j => base * Fpow s j) (seq 0 n)) i
  = Some (base * Fpow s i).
Proof.
  intros Hi. rewrite nth_error_map, nth_error_nth' with (d := 0%nat)
    by (rewrite length_seq; lia).
  rewrite seq_nth by lia. reflexivity.
Qed.

(** The loop that collects the negative powers, for a nonzero secret. *)
Lemma neg_powers_loop (s : F) (l : list Z) :
  (s ==? Fzero) = false ->
  forall k : nat,
    for_each (fun '(acc, cur) (_ : Z) =>
                next <- py_div cur s ;; Ret (acc ++ [cur], next))
             l
             (map (fun j => Nat.iter j (fun c => c / s) Fone) (seq 0 k),
              Nat.iter k (fun c => c / s) Fone)
    = Ret (map (fun j => Nat.iter j (fun c => c / s) Fone)
               (seq 0 (k + length l)),
           Nat.iter (k + length l) (fun c => c / s) Fone).
Proof.
  intros Hs. induction l as [| x l IH]; intros k.
  - simpl. now rewrite Nat.add_0_r.
  - cbn [for_each]. unfold py_div at 1. rewrite Hs. cbn [bind].
    replace (map (fun j => Nat.iter j (fun c => c / s) Fone) (seq 0 k)
             ++ [Nat.iter k (fun c => c / s) Fone])
      with (map (fun j => Nat.iter j (fun c => c / s) Fone) (seq 0 (S k)))
      by (rewrite seq_S, map_app; reflexivity).
    change (Nat.iter k (fun c => c / s) Fone / s)
      with (Nat.iter (S k) (fun c => c / s) Fone).
    rewrite IH. simpl length.
    replace (S k + length l)%nat with (k + S (length l))%nat by lia.
    reflexivity.
Qed.

(** What [setup] does, exactly: it raises when asked for the negative
    powers of a zero secret, and otherwise returns the powers of the secret
    applied to the generators, having made its draws in the order
    generators, secret, blinding generator. *)
Lemma setup_exact (max_degree : Z) (produce_g2_powers : bool)
      (secret_symbol : option F) (generators : option (F * F)) (r : rng) :
  let g0 := match generators with
            | Some (a, _) => a
            | None => field_tape r (field_pos r)
            end in
  let h0 := match generators with
            | Some (_, b) => b
            | None => field_tape r (S (field_pos r))
            end in
  let k1 := match generators with Some _ => 0%nat | None => 2%nat end in
  let s0 := match secret_symbol with
            | Some x => x
            | None => field_tape r (field_pos r + k1)
            end in
  let k2 := (k1 + match secret_symbol with Some _ => 0 | None => 1 end)%nat in
  let gamma0 := field_tape r (field_pos r + k2) in
  setup max_degree produce_g2_powers secret_symbol generators r
  = if produce_g2_powers && (s0 ==? Fzero)
    then Raise ZeroDivisionError
    else
      Ret ({| powers_of_g :=
                map (fun j => g0 * Fpow s0 j)
                    (seq 0 (Z.to_nat (max_degree + 1)));
              powers_of_gamma_g :=
                map (fun j => gamma0 * Fpow s0 j)
                    (seq 0 (Z.to_nat (max_degree + 2)));
              h := h0; beta_h := s0 * h0;
              neg_powers_of_h :=
                if produce_g2_powers then
                  map (fun j => h0 * Nat.iter j (fun c => c / s0) Fone)
                      (seq 0 (Z.to_nat (max_degree + 1)))
                else [] |},
           {| field_tape := field_tape r; int_tape := int_tape r;
              field_pos := S (field_pos r + k2); int_pos := int_pos r |}).
Proof.
  intros g0 h0 k1 s0 k2 gamma0.
  assert (Hcore :
            forall (g h1 s gam : F) (r' : @rng F),
              (let powers_of_s :=
                 map (fun i => Fpow s (Z.to_nat i)) (range (max_degree + 2)) in
               powers_of_g <-
                 comprehension
                   (fun i => si <- py_get powers_of_s i ;; Ret (g * si))
                   (range (max_degree + 1)) ;;
               powers_of_gamma_g <-
                 comprehension
                   (fun i => si <- py_get powers_of_s i ;; Ret (gam * si))
                   (range (max_degree + 2)) ;;
               neg_powers_of_h <-
                 (if produce_g2_powers then
                    cur <- py_div Fone s ;;
                    '(neg_powers_of_beta, _) <-
                      for_each (fun '(acc, cur) (_ : Z) =>
                                  next <- py_div cur s ;;
                                  Ret (acc ++ [cur], next))
                               (range max_degree) ([Fone], cur) ;;
                    comprehension
                      (fun i => bi <- py_get neg_powers_of_beta i ;;
                                Ret (h1 * bi))
                      (range (max_degree + 1))
                  else Ret []) ;;
               Ret ({| powers_of_g := powers_of_g;
                       powers_of_gamma_g := powers_of_gamma_g;
                       h := h1; beta_h := s * h1;
                       neg_powers_of_h := neg_powers_of_h |}, r'))
              = if produce_g2_powers && (s ==? Fzero)
                then Raise ZeroDivisionError
                else
                  Ret ({| powers_of_g :=
                            map (fun j => g * Fpow s j)
                                (seq 0 (Z.to_nat (max_degree + 1)));
                          powers_of_gamma_g :=
                            map (fun j => gam * Fpow s j)
                                (seq 0 (Z.to_nat (max_degree + 2)));
                          h := h1; beta_h := s * h1;
                          neg_powers_of_h :=
                            if produce_g2_powers then
                              map (fun j =>
                                     h1 * Nat.iter j (fun c => c / s) Fone)
                                  (seq 0 (Z.to_nat (max_degree + 1)))
                            else [] |}, r')).
  { intros g h1 s gam r'. cbv zeta.
    set (pows := map (fun i => Fpow s (Z.to_nat i)) (range (max_degree + 2))).
    assert (Hpows : pows = map (Fpow s) (seq 0 (Z.to_nat (max_degree + 2)))).
    { unfold pows, range. rewrite map_map. apply map_ext. intros j.
      now rewrite Nat2Z.id. }
    assert (Hlen : length pows = Z.to_nat (max_degree + 2)).
    { unfold pows. now rewrite length_map, range_length. }
    rewrite (comprehension_get_range pows (fun si => g * si) Fzero) by lia.
    rewrite (comprehension_get_range pows (fun si => gam * si) Fzero) by lia.
    rewrite Hpows, !map_nth_seq by lia. cbn [bind].
    destruct produce_g2_powers; [| reflexivity].
    cbn [andb]. unfold py_div at 1.
    destruct (s ==? Fzero) eqn:Hs; [reflexivity |]. cbn [bind].
    pose proof (neg_powers_loop s (range max_degree) Hs 1) as Hloop.
    change (map (fun j => Nat.iter j (fun c => c / s) Fone) (seq 0 1))
      with [Fone] in Hloop.
    change (Nat.iter 1 (fun c => c / s) Fone) with (Fone / s) in Hloop.
    rewrite range_length in Hloop. rewrite Hloop. cbn [bind].
    rewrite (comprehension_get_range _ (fun bi => h1 * bi) Fzero)
      by (rewrite length_map, length_seq; lia).
    rewrite (map_nth_seq (fun j => Nat.iter j (fun c => c / s) Fone)
                         (fun bi => h1 * bi)) by lia.
    reflexivity. }
  unfold setup.
  destruct generators as [[a b] |], secret_symbol as [x |];
    subst g0 h0 k1 s0 k2 gamma0;
    rewrite !(Nat.add_comm (field_pos r));
    cbn [Nat.add random_element field_tape int_tape field_pos int_pos];
    rewrite Hcore; reflexivity.
Qed.
(** C9 (as the code has it) — SRS shape.  For every [max_degree >= 0],
    [setup] (unless it is asked for the G2 powers with a zero secret, where
    [1 / s] raises) returns parameters whose [powers_of_g] has
    [max_degree + 1] entries, entry [i] being [g * s^i], whose
    [powers_of_gamma_g] has [max_degree + 2] entries, entry [i] being
    [gamma_g * s^i], and whose [beta_h] is [s * h]; here [g] and [h] are the
    generators passed in or else the first two draws, [s] is the secret
    passed in (a field element) or else the next draw, and [gamma_g] is the
    draw after that. *)
Theorem setup_shape (max_degree : Z) (produce_g2_powers : bool)
        (secret_symbol : option F) (generators : option (F * F)) (r : rng) :
  let g0 := match generators with
            | Some (a, _) => a
            | None => field_tape r (field_pos r)
            end in
  let h0 := match generators with
            | Some (_, b) => b
            | None => field_tape r (S (field_pos r))
            end in
  let k1 := match generators with Some _ => 0%nat | None => 2%nat end in
  let s0 := match secret_symbol with
            | Some x => x
            | None => field_tape r (field_pos r + k1)
            end in
  let k2 := (k1 + match secret_symbol with Some _ => 0 | None => 1 end)%nat in
  let gamma0 := field_tape r (field_pos r + k2) in
  (0 <= max_degree)%Z ->
  (produce_g2_powers = true -> s0 <> Fzero) ->
  exists (p : Params) (r' : rng),
    setup max_degree produce_g2_powers secret_symbol generators r = Ret (p, r')
    /\ Z.of_nat (length (powers_of_g p)) = (max_degree + 1)%Z
    /\ (forall i : nat, (Z.of_nat i <= max_degree)%Z ->
        nth_error (powers_of_g p) i = Some (g0 * Fpow s0 i))
    /\ Z.of_nat (length (powers_of_gamma_g p)) = (max_degree + 2)%Z
    /\ (forall i : nat, (Z.of_nat i <= max_degree + 1)%Z ->
        nth_error (powers_of_gamma_g p) i = Some (gamma0 * Fpow s0 i))
    /\ h p = h0
    /\ beta_h p = s0 * h0.
Proof.
  intros g0 h0 k1 s0 k2 gamma0 Hmd Hs.
  pose proof (setup_exact max_degree produce_g2_powers secret_symbol
                          generators r) as H.
  cbv zeta in H. fold g0 h0 k1 in H. fold s0 in H. fold k2 in H.
  fold gamma0 in H.
  replace (produce_g2_powers && (s0 ==? Fzero)) with false in H.
  2:{ destruct produce_g2_powers; [| reflexivity]. simpl.
      destruct (s0 ==? Fzero) eqn:E; [| reflexivity].
      apply Feqb_eq in E. now destruct (Hs eq_refl). }
  do 2 eexists. split; [exact H |]. simpl.
  repeat split.
  - rewrite length_map, length_seq. lia.
  - intros i Hi. apply powers_nth. lia.
  - rewrite length_map, length_seq. lia.
  - intros i Hi. apply powers_nth. lia.
Qed.

(** *** The resampling loop of [commit] *)

Lemma resample_done (fuel : nat) (bound : Z) (random_ints : list F) (r : rng) :
  degree_of random_ints <> 0%nat ->
  resample fuel bound random_ints r = Ret (random_ints, r).
Proof.
  intros H. destruct fuel; simpl; unfold degree; simpl;
    destruct (degree_of random_ints); try contradiction; reflexivity.
Qed.

Lemma random_elements_length (n : nat) (r : @rng F) :
  length (fst (random_elements n r)) = n.
Proof.
  revert r. induction n as [| n IH]; intros r; simpl.
  - reflexivity.
  - specialize (IH (snd (random_element r))).
    unfold random_element in *. simpl in *.
    destruct (random_elements n _) as [xs r2]. simpl in *. now rewrite IH.
Qed.

(** Whatever the loop returns has a positive degree; started on the empty
    list, it returns one of the drawn lists. *)
Lemma resample_returns (fuel : nat) (bound : Z) :
  forall (random_ints : list F) (r : rng) (ri : list F) (r' : rng),
    resample fuel bound random_ints r = Ret (ri, r') ->
    degree_of ri <> 0%nat
    /\ (degree_of random_ints = 0%nat ->
        length ri = Z.to_nat (bound + 1)).
Proof.
  induction fuel as [| fuel IH]; intros random_ints r ri r' H; simpl in H;
    unfold degree in H; simpl in H.
  - destruct (degree_of random_ints) eqn:E; simpl in H; [discriminate |].
    inversion H; subst. split; [congruence | intros; discriminate].
  - destruct (degree_of random_ints) eqn:E; simpl in H.
    + pose proof (random_elements_length (Z.to_nat (bound + 1)) r) as Hl.
      destruct (random_elements (Z.to_nat (bound + 1)) r) as [xs r1].
      simpl in Hl.
      destruct (IH xs r1 ri r' H) as [Hd Hlen]. split; [exact Hd |].
      intros _. destruct (degree_of xs) eqn:Ex.
      * now apply Hlen.
      * rewrite resample_done in H by congruence. inversion H; subst.
        exact Hl.
    + inversion H; subst. split; [congruence | intros; discriminate].
Qed.

(** With enough fuel the loop returns as soon as the tape yields a list of
    positive degree. *)
Lemma resample_terminates (fuel : nat) (bound : Z) :
  forall (random_ints : list F) (r : rng),
    (exists k, (k < fuel)%nat
               /\ degree_of (nth_block (Z.to_nat (bound + 1)) k r) <> 0%nat) ->
    exists ri r', resample fuel bound random_ints r = Ret (ri, r').
Proof.
  induction fuel as [| fuel IH]; intros random_ints r [k [Hk Hd]]; [lia |].
  simpl. unfold degree. simpl.
  destruct (degree_of random_ints) eqn:E; simpl; [| eauto].
  destruct (random_elements (Z.to_nat (bound + 1)) r) as [xs r1] eqn:Ex.
  destruct k as [| k].
  - simpl in Hd. rewrite Ex in Hd. simpl in Hd.
    rewrite resample_done by exact Hd. eauto.
  - simpl in Hd. rewrite Ex in Hd. simpl in Hd.
    apply IH. exists k. split; [lia | exact Hd].
Qed.

(** A hiding bound of zero (or less) keeps the loop running: every list it
    draws has at most one coefficient, hence degree 0. *)
Lemma resample_zero_bound (fuel : nat) (bound : Z) :
  (bound <= 0)%Z ->
  forall (random_ints : list F) (r : rng),
    (length random_ints <= 1)%nat ->
    resample fuel bound random_ints r = NoFuel.
Proof.
  intros Hb. induction fuel as [| fuel IH]; intros random_ints r Hl.
  - simpl. destruct random_ints as [| x [| y t]]; simpl in *; try lia;
      reflexivity.
  - simpl.
    replace (degree {| coeffs := random_ints |} =? 0)%Z with true
      by (destruct random_ints as [| x [| y t]]; simpl in *; try lia;
          reflexivity).
    pose proof (random_elements_length (Z.to_nat (bound + 1)) r) as Hlen.
    destruct (random_elements (Z.to_nat (bound + 1)) r) as [xs r1].
    simpl in Hlen. apply IH. lia.
Qed.

(** *** [commit] *)

Ltac bind_inv H :=
  let u := fresh "u" in
  let Hu := fresh "Hu" in
  apply bind_Ret in H; destruct H as [u [Hu H]].

(** The first assertion of [commit]. *)
Lemma commit_too_many_coefficients (self : KZG10Commitment)
      (p : UniPolynomial) (fuel : nat) (r : rng) :
  (Z.of_nat (length (powers_of_g (params self))) < degree p + 1)%Z ->
  commit self p fuel r = Raise (AssertionError "Too many coefficients").
Proof.
  intros H. unfold commit.
  replace (degree p + 1 <=? Z.of_nat (length (powers_of_g (params self))))%Z
    with false by (symmetry; apply Z.leb_gt; lia).
  reflexivity.
Qed.

Lemma py_assert_true (cond : bool) (msg : string) (u : unit) :
  py_assert cond msg = Ret u -> cond = true.
Proof. destruct cond; [reflexivity | discriminate]. Qed.

(** The first nonzero coefficient is at or below the degree. *)
Lemma leading_zeros_nonzero (cs : list F) :
  all_zero cs = false ->
  (count_leading_zeros cs 0 <= degree_of cs)%nat
  /\ skipn (count_leading_zeros cs 0) cs <> [].
Proof.
  induction cs as [| c t IH]; intros H; [discriminate |]. simpl.
  destruct (c ==? Fzero) eqn:E.
  - assert (Ht : all_zero t = false).
    { destruct (all_zero t) eqn:Et; [| reflexivity].
      apply Feqb_eq in E. subst c.
      assert (all_zero (Fzero :: t) = true)
        by (apply all_zero_cons; now split).
      congruence. }
    destruct (IH Ht) as [IH1 IH2].
    rewrite count_leading_zeros_shift, Ht. simpl. split; [lia | exact IH2].
  - simpl. split; [lia | discriminate].
Qed.

Lemma leading_zeros_all_zero (cs : list F) :
  all_zero cs = true -> skipn (count_leading_zeros cs 0) cs = [].
Proof.
  induction cs as [| c t IH]; intros H; [reflexivity |].
  apply all_zero_cons in H. destruct H as [-> H]. simpl.
  replace (Fzero ==? Fzero) with true by (symmetry; now apply Feqb_eq).
  rewrite count_leading_zeros_shift. simpl. now apply IH.
Qed.

(** The sum of [commit] is a [Field] element exactly when the polynomial
    has a nonzero coefficient (for a polynomial that fits the SRS). *)
Lemma commit_sum_is_Field (pg cs : list F) :
  (degree_of cs < length pg)%nat ->
  msm_is_Field (skipn (count_leading_zeros cs 0) pg)
               (skipn (count_leading_zeros cs 0) cs)
  = negb (all_zero cs).
Proof.
  intros Hd. unfold msm_is_Field. destruct (all_zero cs) eqn:E.
  - rewrite (leading_zeros_all_zero cs E).
    now destruct (skipn (count_leading_zeros cs 0) pg).
  - destruct (leading_zeros_nonzero cs E) as [Hn Hs].
    destruct (skipn (count_leading_zeros cs 0) cs) as [| c t];
      [contradiction |].
    destruct (skipn (count_leading_zeros cs 0) pg) as [| b bs] eqn:Ep;
      [| reflexivity].
    apply (f_equal (@length F)) in Ep. rewrite length_skipn in Ep.
    simpl in Ep. lia.
Qed.

(** What a result of [commit] tells, read off the code. *)
Lemma commit_Ret_inv (self : KZG10Commitment) (p : UniPolynomial)
      (fuel : nat) (r : rng) (c : Commitment) (ri : list F) (r' : rng) :
  commit self p fuel r = Ret (c, ri, r') ->
  let n := count_leading_zeros (coeffs p) 0 in
  let plain :=
    msm_bigint_basic (skipn n (powers_of_g (params self)))
                     (skipn n (coeffs p)) in
  (degree p + 1 <= Z.of_nat (length (powers_of_g (params self))))%Z
  /\ (debug self = true ->
      msm_is_Field (skipn n (powers_of_g (params self))) (skipn n (coeffs p))
      = true)
  /\ group c = G1 self
  /\ match hiding_bound self with
     | Some b =>
         resample fuel b [] r = Ret (ri, r')
         /\ b <> 0%Z
         /\ (Z.of_nat (length ri) - 1
             < Z.of_nat (length (powers_of_gamma_g (params self))))%Z
         /\ value c
            = plain + msm_bigint_basic (powers_of_gamma_g (params self)) ri
     | None => ri = [] /\ r' = r /\ value c = plain
     end.
Proof.
  intros H n plain. unfold commit in H.
  apply bind_Ret in H. destruct H as [u0 [Hfit H]].
  apply py_assert_true, Z.leb_le in Hfit.
  cbv zeta in H.
  apply bind_Ret in H. destruct H as [u1 [_ H]].
  cbn [skip_leading_zeros_and_convert_to_bigints msm_bigint negation_is_cheap
       bind] in H.
  apply bind_Ret in H. destruct H as [u2 [Hd H]].
  apply bind_Ret in H. destruct H as [[[[cv f] ri0] r0] [Hm H]].
  apply bind_Ret in H. destruct H as [u3 [_ H]].
  inversion H; subst. clear H.
  split; [exact Hfit |]. split.
  { intros Hdbg. rewrite Hdbg in Hd. now apply py_assert_true in Hd. }
  split; [reflexivity |]. simpl value.
  destruct (hiding_bound self) as [b |].
  - apply bind_Ret in Hm. destruct Hm as [[ri1 r1] [Hres Hm]].
    apply bind_Ret in Hm. destruct Hm as [u4 [_ Hm]].
    apply bind_Ret in Hm. destruct Hm as [u5 [Hb Hm]].
    apply bind_Ret in Hm. destruct Hm as [u6 [Hl Hm]].
    cbn [bind] in Hm. inversion Hm; subst. clear Hm.
    apply py_assert_true, negb_true_iff, Z.eqb_neq in Hb.
    apply py_assert_true, Z.ltb_lt in Hl.
    repeat split; assumption.
  - inversion Hm; subst. repeat split.
Qed.

Lemma commit_Ret_fits (self : KZG10Commitment) (p : UniPolynomial)
      (fuel : nat) (r : rng) (res : Commitment * list F * rng) :
  commit self p fuel r = Ret res ->
  (degree p + 1 <= Z.of_nat (length (powers_of_g (params self))))%Z.
Proof.
  intros H. destruct res as [[c ri] r'].
  now apply commit_Ret_inv in H.
Qed.

(** Under [debug] an all-zero polynomial stops [commit] at its second
    [isinstance] assertion. *)
Lemma commit_not_Field (self : KZG10Commitment) (p : UniPolynomial)
      (fuel : nat) (r : rng) :
  debug self = true ->
  (degree p + 1 <= Z.of_nat (length (powers_of_g (params self))))%Z ->
  all_zero (coeffs p) = true ->
  commit self p fuel r = Raise (AssertionError EmptyString).
Proof.
  intros Hd Hfit Hz. unfold commit.
  replace (degree p + 1 <=? Z.of_nat (length (powers_of_g (params self))))%Z
    with true by (symmetry; apply Z.leb_le; lia).
  rewrite Hd.
  cbn [py_assert bind skip_leading_zeros_and_convert_to_bigints msm_bigint
       negation_is_cheap].
  rewrite commit_sum_is_Field by (unfold degree in Hfit; lia).
  rewrite Hz. reflexivity.
Qed.

(** [commit] without hiding. *)
Lemma commit_plain (self : KZG10Commitment) (p : UniPolynomial) (fuel : nat)
      (r : rng) :
  hiding_bound self = None ->
  (degree p + 1 <= Z.of_nat (length (powers_of_g (params self))))%Z ->
  (debug self = true -> all_zero (coeffs p) = false) ->
  commit self p fuel r
  = Ret ({| group := G1 self;
            value := msm_bigint_basic (powers_of_g (params self)) (coeffs p) |},
         [], r).
Proof.
  intros Hh Hd Hdbg. unfold commit.
  replace (degree p + 1 <=? Z.of_nat (length (powers_of_g (params self))))%Z
    with true by (symmetry; apply Z.leb_le; lia).
  cbn [py_assert bind skip_leading_zeros_and_convert_to_bigints msm_bigint
       negation_is_cheap].
  rewrite commit_sum_is_Field by (unfold degree in Hd; lia).
  rewrite Hh, msm_skip_leading_zeros.
  destruct (debug self); [rewrite (Hdbg eq_refl) |]; reflexivity.
Qed.

(** [commit] with a hiding bound: what remains after the size assertion,
    the first sum and the [isinstance] assertions, which pass. *)
Lemma commit_hiding (self : KZG10Commitment) (p : UniPolynomial) (fuel : nat)
      (r : rng) (bound : Z) :
  hiding_bound self = Some bound ->
  (degree p + 1 <= Z.of_nat (length (powers_of_g (params self))))%Z ->
  (debug self = true -> all_zero (coeffs p) = false) ->
  commit self p fuel r
  = ('(random_ints, r) <- resample fuel bound [] r ;;
     _ <- (if debug self then
             py_assert (0 <? degree (mkPoly random_ints))%Z
                       "Degree of random poly is zero"
           else Ret tt) ;;
     _ <- py_assert (negb (bound =? 0)%Z) "Hiding bound is zero" ;;
     _ <- py_assert (Z.of_nat (length random_ints) - 1
                     <? Z.of_nat (length (powers_of_gamma_g (params self))))%Z
                    "Hiding bound is too large" ;;
     Ret ({| group := G1 self;
             value := msm_bigint_basic (powers_of_g (params self)) (coeffs p)
                      + msm_bigint_basic (powers_of_gamma_g (params self))
                                         random_ints |},
          random_ints, r)).
Proof.
  intros Hh Hd Hdbg. unfold commit.
  replace (degree p + 1 <=? Z.of_nat (length (powers_of_g (params self))))%Z
    with true by (symmetry; apply Z.leb_le; lia).
  cbn [py_assert bind skip_leading_zeros_and_convert_to_bigints msm_bigint
       negation_is_cheap].
  rewrite commit_sum_is_Field by (unfold degree in Hd; lia).
  rewrite Hh, msm_skip_leading_zeros.
  destruct (resample fuel bound [] r) as [[ri r1] | e |];
    destruct (debug self); try rewrite (Hdbg eq_refl);
    cbn [py_assert bind negb orb]; try reflexivity;
    repeat match goal with
           | |- context [py_assert ?c _] =>
               destruct c; cbn [py_assert bind]; try reflexivity
           end.
Qed.

(** With a hiding bound [b >= 1] that fits the SRS and a tape that yields a
    list of positive degree within the fuel, [commit] returns. *)
Lemma commit_hiding_returns (self : KZG10Commitment) (p : UniPolynomial)
      (fuel : nat) (r : rng) (bound : Z) :
  hiding_bound self = Some bound ->
  (degree p + 1 <= Z.of_nat (length (powers_of_g (params self))))%Z ->
  (debug self = true -> all_zero (coeffs p) = false) ->
  (1 <= bound)%Z ->
  (bound < Z.of_nat (length (powers_of_gamma_g (params self))))%Z ->
  (exists k, (k < fuel)%nat
             /\ degree_of (nth_block (Z.to_nat (bound + 1)) k r) <> 0%nat) ->
  exists ri r',
    commit self p fuel r
    = Ret ({| group := G1 self;
              value := msm_bigint_basic (powers_of_g (params self)) (coeffs p)
                       + msm_bigint_basic (powers_of_gamma_g (params self)) ri |},
           ri, r')
    /\ degree_of ri <> 0%nat
    /\ length ri = Z.to_nat (bound + 1).
Proof.
  intros Hh Hd Hdbg Hb Hg Hk.
  rewrite (commit_hiding self p fuel r bound Hh Hd Hdbg).
  destruct (resample_terminates fuel bound [] r Hk) as (ri & r' & Hres).
  destruct (resample_returns _ _ _ _ _ _ Hres) as [Hdeg Hlen].
  specialize (Hlen eq_refl).
  exists ri, r'. rewrite Hres. cbn [bind].
  replace (0 <? degree {| coeffs := ri |})%Z with true
    by (symmetry; apply Z.ltb_lt; unfold degree; simpl; lia).
  replace (negb (bound =? 0)%Z) with true
    by (symmetry; apply negb_true_iff, Z.eqb_neq; lia).
  replace (Z.of_nat (length ri) - 1
           <? Z.of_nat (length (powers_of_gamma_g (params self))))%Z
    with true by (symmetry; apply Z.ltb_lt; lia).
  destruct (debug self); simpl; auto.
Qed.

(** C8 — Hiding non-degeneracy.  Whenever a hiding bound [b > 0] is
    configured, the blinding randomness returned by [commit] has degree at
    least 1; and [commit] does return it, given enough fuel, as soon as the
    tape yields a list of positive degree (for a polynomial and a bound that
    fit the SRS, the polynomial having a nonzero coefficient when [debug] is
    on). *)
Theorem commit_blinding_degree (self : KZG10Commitment) (p : UniPolynomial)
        (fuel : nat) (r : rng) (b : Z) :
  hiding_bound self = Some b ->
  (0 < b)%Z ->
  (forall c ri r',
      commit self p fuel r = Ret (c, ri, r') ->
      (1 <= degree (mkPoly ri))%Z)
  /\ ((degree p + 1 <= Z.of_nat (length (powers_of_g (params self))))%Z ->
      (debug self = true -> all_zero (coeffs p) = false) ->
      (b < Z.of_nat (length (powers_of_gamma_g (params self))))%Z ->
      (exists k, (k < fuel)%nat
                 /\ degree_of (nth_block (Z.to_nat (b + 1)) k r) <> 0%nat) ->
      exists c ri r', commit self p fuel r = Ret (c, ri, r')).
Proof.
  intros Hh Hb. split.
  - intros c ri r' H.
    apply commit_Ret_inv in H. cbv zeta in H.
    destruct H as (_ & _ & _ & H). rewrite Hh in H.
    destruct H as (Hres & _).
    apply resample_returns in Hres. destruct Hres as [Hdeg _].
    unfold degree. simpl. lia.
  - intros Hfit Hdbg Hg Hk.
    destruct (commit_hiding_returns self p fuel r b Hh Hfit Hdbg ltac:(lia)
                                    Hg Hk)
      as (ri & r' & Hc & _).
    eauto.
Qed.

(** C7 (the case the code misses) — under a hiding bound of zero [commit]
    never raises ["Hiding bound is zero"]: it stops at the size assertion,
    or (under [debug], on an all-zero polynomial) at the [isinstance]
    assertion, and otherwise the resampling loop is still running whatever
    the fuel, so that the assertion that follows the loop is never
    reached. *)
Theorem commit_zero_hiding_bound_loops (g1 g2 : DummyGroup) (md : Z)
        (dbg : bool) (prm : Params) (p : UniPolynomial) (fuel : nat) (r : rng) :
  commit {| G1 := g1; G2 := g2; max_degree := md; hiding_bound := Some 0%Z;
            debug := dbg; params := prm |} p fuel r
  = if (degree p + 1 <=? Z.of_nat (length (powers_of_g prm)))%Z
    then
      if dbg && all_zero (coeffs p)
      then Raise (AssertionError EmptyString)
      else NoFuel
    else Raise (AssertionError "Too many coefficients").
Proof.
  destruct (Z.leb_spec (degree p + 1) (Z.of_nat (length (powers_of_g prm))))
    as [Hle | Hgt].
  - destruct (dbg && all_zero (coeffs p)) eqn:E.
    + apply andb_true_iff in E. destruct E as [-> Hz].
      now apply commit_not_Field.
    + match goal with
      | |- commit ?s _ _ _ = _ =>
          rewrite (commit_hiding s p fuel r 0%Z eq_refl)
      end.
      * rewrite resample_zero_bound by (simpl; lia). reflexivity.
      * exact Hle.
      * simpl. intros ->. exact E.
  - apply commit_too_many_coefficients. simpl. lia.
Qed.

(** The other fatal preconditions do raise. *)
Lemma division_single_coefficient (c d : F) :
  division_by_linear_divisor [c] d
  = Raise (AssertionError "Polynomial degree must be at least 1").
Proof. reflexivity. Qed.

Lemma Commitment_add_group_mismatch (a b : Commitment) :
  group_id (group a) <> group_id (group b) ->
  Commitment_add a b
  = Raise (TypeError "Can only add commitments from the same group").
Proof.
  intros H. unfold Commitment_add, group_eqb.
  apply Nat.eqb_neq in H. now rewrite H.
Qed.

(** *** Additivity *)





(** C10 — The shipped configuration.  Because [negation_is_cheap] is
    [False], [msm_bigint] called with the module's flag is
    [msm_bigint_basic] on every input, and so are the calls made by [commit]
    (on the coefficients, and on the blinding coefficients under hiding) and
    by [open_with_witness_polynomial] (on the witness, and on the hiding
    witness): their results are the basic sums; the windowed-NAF branch
    contributes to none of them. *)
Theorem msm_calls_are_basic :
  (forall (G S : Type) (grp : GroupOps G) (sc : ScalarOps G S)
          (bases : list G) (bigints : list S),
      msm_bigint negation_is_cheap bases bigints
      = Ret (msm_bigint_basic bases bigints))
  /\ (forall (self : KZG10Commitment) (p : UniPolynomial) (fuel : nat)
             (r : rng) c ri r',
         commit self p fuel r = Ret (c, ri, r') ->
         let n := count_leading_zeros (coeffs p) 0 in
         let plain :=
           msm_bigint_basic (skipn n (powers_of_g (params self)))
                            (skipn n (coeffs p)) in
         value c = match hiding_bound self with
                   | Some _ =>
                       plain + msm_bigint_basic
                                 (powers_of_gamma_g (params self)) ri
                   | None => plain
                   end)
  /\ (forall (self : KZG10Commitment) (point : F) (ri : list F)
             (wp : UniPolynomial) (hwp : option UniPolynomial)
             (proof : OpeningProof),
         open_with_witness_polynomial self point ri wp hwp = Ret proof ->
         let n := count_leading_zeros (coeffs wp) 0 in
         let plain :=
           msm_bigint_basic (skipn n (powers_of_g (params self)))
                            (skipn n (coeffs wp)) in
         w proof = match hwp with
                   | Some hw =>
                       plain + msm_bigint_basic
                                 (powers_of_gamma_g (params self)) (coeffs hw)
                   | None => plain
                   end).
Proof.
  split; [reflexivity | split].
  - intros self p fuel r c ri r' H.
    apply commit_Ret_inv in H. cbv zeta in H.
    destruct H as (_ & _ & _ & H).
    destruct (hiding_bound self) as [b |].
    + now destruct H as (_ & _ & _ & H).
    + now destruct H as (_ & _ & H).
  - intros self point ri wp hwp proof H.
    unfold open_with_witness_polynomial in H.
    bind_inv H. simpl in H.
    destruct hwp as [hw |]; inversion H; subst; reflexivity.
Qed.
(** *** Evaluation of the reconstructed polynomial *)

Lemma eval_poly_add (p q : list F) (x : F) :
  eval_from (poly_add p q) x Fone
  = eval_from p x Fone + eval_from q x Fone.
Proof.
  revert q. induction p as [| a p IH]; intros q.
  - simpl. ring.
  - destruct q as [| b q].
    + simpl. ring.
    + simpl poly_add. rewrite !eval_cons, IH. ring.
Qed.

Lemma eval_poly_mul_linear (q : list F) (d x : F) :
  eval_from (poly_mul q [- d; Fone]) x Fone = eval_from q x Fone * (x - d).
Proof.
  induction q as [| a q IH].
  - simpl. ring.
  - change (poly_mul (a :: q) [- d; Fone])
      with (poly_add [a * - d; a * Fone] (Fzero :: poly_mul q [- d; Fone])).
    rewrite eval_poly_add, !eval_cons, IH. simpl. ring.
Qed.

Lemma eval_reconstruct (q : list F) (d r x : F) :
  eval_from (reconstruct q d r) x Fone = eval_from q x Fone * (x - d) + r.
Proof.
  unfold reconstruct. rewrite eval_poly_add, eval_poly_mul_linear. simpl. ring.
Qed.

(** The division of a list of at least two coefficients, as [open] needs
    it: the evaluation identity and the zero tail of the quotient. *)
Lemma division_eval (cs : list F) (d : F) :
  (2 <= length cs)%nat ->
  exists (q : list F) (rem : F),
    division_by_linear_divisor cs d = Ret (q, rem)
    /\ length q = (length cs - 1)%nat
    /\ (forall x, eval_from cs x Fone = eval_from q x Fone * (x - d) + rem)
    /\ rem = eval_from cs d Fone
    /\ (forall m, all_zero (skipn (S m) cs) = true ->
                  all_zero (skipn m q) = true).
Proof.
  intros Hlen.
  destruct (division_returns cs d Hlen) as (l & top & Hc & Hdiv & Hrun).
  exists (fst (horner d l ([], top))), (snd (horner d l ([], top))).
  split; [now rewrite Hdiv, <- surjective_pairing |].
  split; [| split; [| split]].
  - rewrite Hrun, division_run_length, length_rev, Hc, length_app. simpl. lia.
  - intros x. rewrite <- eval_reconstruct.
    rewrite Hrun, division_run_reconstruct, rev_involutive, Hc. reflexivity.
  - rewrite Hrun, division_run_remainder, rev_involutive, Hc. reflexivity.
  - intros m Hm. rewrite Hc in Hm. now apply horner_tail.
Qed.

(** The sum against the SRS powers is the evaluation at the secret. *)
Lemma msm_srs (base s : F) (n : nat) (cs : list F) :
  all_zero (skipn n cs) = true ->
  msm_bigint_basic
    (skipn (count_leading_zeros cs 0)
           (map (fun j => base * Fpow s j) (seq 0 n)))
    (skipn (count_leading_zeros cs 0) cs)
  = base * eval_from cs s Fone.
Proof.
  intros H. rewrite msm_skip_leading_zeros, msm_powers, eval_firstn by exact H.
  reflexivity.
Qed.

Lemma msm_srs_all (base s : F) (n : nat) (cs : list F) :
  (length cs <= n)%nat ->
  msm_bigint_basic (map (fun j => base * Fpow s j) (seq 0 n)) cs
  = base * eval_from cs s Fone.
Proof.
  intros H. rewrite msm_powers, firstn_all2 by exact H. reflexivity.
Qed.

(** *** [open] and [check] on the parameters of [setup] *)

Lemma all_zero_skipn_le (l : list F) (a b : nat) :
  (a <= b)%nat -> all_zero (skipn a l) = true -> all_zero (skipn b l) = true.
Proof.
  intros Hab H. replace b with ((b - a) + a)%nat by lia.
  rewrite <- skipn_skipn. now apply all_zero_skipn.
Qed.

Lemma quotient_degree (cs q : list F) :
  (forall m, all_zero (skipn (S m) cs) = true -> all_zero (skipn m q) = true) ->
  all_zero (skipn (degree_of cs) q) = true
  /\ (degree_of q <= degree_of cs)%nat.
Proof.
  intros H.
  assert (Hq : all_zero (skipn (degree_of cs) q) = true).
  { apply H. apply degree_of_tail. lia. }
  split; [exact Hq |].
  apply degree_of_bound. apply (all_zero_skipn_le q (degree_of cs)); [lia | exact Hq].
Qed.

Lemma srs_first (base s : F) (n : nat) :
  py_get (map (fun j => base * Fpow s j) (seq 0 (S n))) 0 = Ret (base * Fone).
Proof. reflexivity. Qed.

(** What [open] returns on the parameters of [setup]: a witness commitment
    [w] with [w * (s - z)] equal to the blinded difference. *)
Lemma open_returns (self : KZG10Commitment) (p : UniPolynomial) (z : F)
      (ri : list F) (g0 gamma0 s0 h0 : F) :
  srs_of (params self) g0 gamma0 s0 h0 (max_degree self) ->
  (2 <= length (coeffs p))%nat ->
  (degree p < max_degree self)%Z ->
  match hiding_bound self with
  | None => debug self = false
  | Some b =>
      degree_of ri <> 0%nat
      /\ length ri = Z.to_nat (b + 1)
      /\ (1 <= b <= max_degree self + 1)%Z
  end ->
  exists wv : F,
    open self p z ri
    = Ret {| w := wv;
             random_v := match hiding_bound self with
                         | None => None
                         | Some _ => Some (evaluate (mkPoly ri) z)
                         end |}
    /\ wv * (s0 - z)
       = match hiding_bound self with
         | None => g0 * evaluate p s0 - g0 * evaluate p z
         | Some _ =>
             g0 * evaluate p s0 + gamma0 * evaluate (mkPoly ri) s0
             - g0 * evaluate p z - gamma0 * evaluate (mkPoly ri) z
         end.
Proof.
  intros (Hpg & Hgam & _ & _) Hlen Hdeg Hhid.
  unfold degree in Hdeg.
  assert (Hpglen : length (powers_of_g (params self))
                   = Z.to_nat (max_degree self + 1)).
  { rewrite Hpg, length_map, length_seq. reflexivity. }
  destruct (division_eval (coeffs p) z Hlen)
    as (q & rem & Hdiv & Hql & Heval & Hrem & Htail).
  destruct (quotient_degree _ _ Htail) as [Hqz Hqd].
  unfold open.
  replace (degree p + 1 <? Z.of_nat (length (powers_of_g (params self))))%Z
    with true by (symmetry; apply Z.ltb_lt; unfold degree; lia).
  cbn [bind py_assert].
  unfold compute_witness_polynomial, poly_division_by_linear_divisor.
  rewrite Hdiv. cbn [bind].
  assert (Hq_assert :
            (degree (mkPoly q) + 1
             <? Z.of_nat (length (powers_of_g (params self))))%Z = true).
  { apply Z.ltb_lt. unfold degree. simpl. lia. }
  assert (Hq_msm :
            msm_bigint_basic
              (skipn (count_leading_zeros q 0) (powers_of_g (params self)))
              (skipn (count_leading_zeros q 0) q)
            = g0 * eval_from q s0 Fone).
  { rewrite Hpg. apply msm_srs.
    apply (all_zero_skipn_le q (degree_of (coeffs p))); [lia | exact Hqz]. }
  destruct (hiding_bound self) as [b |].
  - destruct Hhid as (Hrd & Hrl & Hb).
    replace (0 <? degree (mkPoly ri))%Z with true
      by (symmetry; apply Z.ltb_lt; unfold degree; simpl; lia).
    assert (Hrlen : (2 <= length ri)%nat) by lia.
    destruct (division_eval ri z Hrlen)
      as (rq & rrem & Hrdiv & Hrql & Hreval & Hrrem & _).
    replace (if debug self then py_assert true "Degree of random poly is zero"
             else Ret tt) with (Ret tt) by (now destruct (debug self)).
    cbn [bind coeffs]. rewrite Hrdiv. cbn [bind].
    replace (if debug self
             then py_assert true "isinstance(hiding_witness_poly, UniPolynomial)"
             else Ret tt) with (Ret tt) by (now destruct (debug self)).
    cbn [bind].
    unfold open_with_witness_polynomial. rewrite Hq_assert.
    cbn [bind py_assert skip_leading_zeros_and_convert_to_bigints coeffs
         msm_bigint negation_is_cheap].
    rewrite Hq_msm, Hgam, msm_srs_all by (rewrite Hrql, Hrl; lia).
    eexists. split; [reflexivity |].
    unfold evaluate. simpl coeffs.
    rewrite (Heval s0), (Hreval s0), Hrem, Hrrem. ring.
  - rewrite Hhid. cbn [bind].
    unfold open_with_witness_polynomial. rewrite Hq_assert.
    cbn [bind py_assert skip_leading_zeros_and_convert_to_bigints coeffs
         msm_bigint negation_is_cheap].
    rewrite Hq_msm.
    eexists. split; [reflexivity |].
    unfold evaluate. rewrite (Heval s0), Hrem. ring.
Qed.

(** [check] accepts a proof whose [w] times [s - z] is the inner element. *)
Lemma check_accepts (self : KZG10Commitment) (comm : Commitment) (z v : F)
      (proof : OpeningProof) (g0 gamma0 s0 h0 : F) :
  srs_of (params self) g0 gamma0 s0 h0 (max_degree self) ->
  (0 <= max_degree self)%Z ->
  match hiding_bound self with
  | None => w proof * (s0 - z) = value comm - g0 * v
  | Some _ =>
      exists rv, random_v proof = Some rv
                 /\ w proof * (s0 - z) = value comm - g0 * v - gamma0 * rv
  end ->
  check self comm z v proof = Ret true.
Proof.
  intros (Hpg & Hgam & Hh & Hbeta) Hmd Hw.
  unfold check. rewrite Hpg, Hgam, Hh, Hbeta.
  replace (Z.to_nat (max_degree self + 1)) with (S (Z.to_nat (max_degree self)))
    by lia.
  replace (Z.to_nat (max_degree self + 2))
    with (S (S (Z.to_nat (max_degree self)))) by lia.
  rewrite srs_first. cbn [bind]. unfold value_of.
  destruct (hiding_bound self) as [b |].
  - destruct Hw as (rv & Hrv & Hw).
    rewrite srs_first, Hrv. cbn [bind].
    replace (value comm - g0 * Fone * v - gamma0 * Fone * rv)
      with (w proof * (s0 - z)) by (rewrite Hw; ring).
    replace (s0 * h0 - h0 * z) with (h0 * (s0 - z)) by ring.
    rewrite pairing_bilinear, Z.eqb_refl. reflexivity.
  - cbn [bind].
    replace (value comm - g0 * Fone * v)
      with (w proof * (s0 - z)) by (rewrite Hw; ring).
    replace (s0 * h0 - h0 * z) with (h0 * (s0 - z)) by ring.
    rewrite pairing_bilinear, Z.eqb_refl. reflexivity.
Qed.

Lemma init_srs (g1 g2 : DummyGroup) (md : Z) (hb : option Z) (dbg : bool)
      (r0 : rng) :
  exists (g0 gamma0 s0 h0 : F) (self : KZG10Commitment) (r : rng),
    KZG10Commitment_init g1 g2 md hb dbg r0 = Ret (self, r)
    /\ G1 self = g1 /\ G2 self = g2 /\ max_degree self = md
    /\ hiding_bound self = hb /\ debug self = dbg
    /\ srs_of (params self) g0 gamma0 s0 h0 md.
Proof.
  unfold KZG10Commitment_init.
  pose proof (setup_exact md false None None r0) as Hs.
  cbv zeta in Hs. cbn [andb] in Hs.
  rewrite Hs. cbn [bind].
  do 6 eexists. split; [reflexivity |].
  simpl. unfold srs_of. simpl. repeat split.
Qed.

(** C1 (as the code has it) — Completeness of commit / open / check.  On a
    scheme built by the constructor, for every polynomial [p] given by at
    least two coefficients with [degree(p) < max_degree] and every point
    [z]: [commit] returns (without hiding, debug off; or under a hiding
    bound [1 <= b <= max_degree + 1], once the tape yields a blinding list
    of positive degree within the fuel, [p] having a nonzero coefficient
    when debug is on), [open] with the randomness that
    [commit] returned returns a proof, and [check] accepts that proof for
    the value [p.evaluate(z)]. *)
Theorem commit_open_check_complete (g1 g2 : DummyGroup) (md : Z)
        (hb : option Z) (dbg : bool) (r0 : rng) (self : KZG10Commitment)
        (r : rng) (p : UniPolynomial) (z : F) (fuel : nat) :
  KZG10Commitment_init g1 g2 md hb dbg r0 = Ret (self, r) ->
  (2 <= length (coeffs p))%nat ->
  (degree p < md)%Z ->
  match hb with
  | None => dbg = false
  | Some b =>
      (1 <= b <= md + 1)%Z
      /\ (dbg = true -> all_zero (coeffs p) = false)
      /\ exists k, (k < fuel)%nat
                   /\ degree_of (nth_block (Z.to_nat (b + 1)) k r) <> 0%nat
  end ->
  exists (c : Commitment) (ri : list F) (r' : rng) (proof : OpeningProof),
    commit self p fuel r = Ret (c, ri, r')
    /\ open self p z ri = Ret proof
    /\ check self c z (evaluate p z) proof = Ret true.
Proof.
  intros Hinit Hlen Hdeg Hhid.
  destruct (init_srs g1 g2 md hb dbg r0)
    as (g0 & gamma0 & s0 & h0 & self' & r1 & Hinit' & _ & _ & Hmd & Hhb & Hdbg
        & Hsrs).
  rewrite Hinit in Hinit'. inversion Hinit'; subst self' r1. clear Hinit'.
  rewrite <- Hmd in Hsrs.
  pose proof Hsrs as (Hpg & Hgam & _ & _).
  assert (Hdeg0 : (0 <= degree p)%Z) by (unfold degree; lia).
  assert (Hfit : (degree p + 1
                  <= Z.of_nat (length (powers_of_g (params self))))%Z).
  { rewrite Hpg, length_map, length_seq. lia. }
  assert (Hp_msm : msm_bigint_basic (powers_of_g (params self)) (coeffs p)
                   = g0 * evaluate p s0).
  { rewrite Hpg, msm_powers. unfold evaluate. simpl Fpow.
    rewrite eval_firstn; [reflexivity |].
    apply degree_of_tail. unfold degree in Hdeg. lia. }
  destruct hb as [b |].
  - destruct Hhid as (Hb & Hnz & Hk). rewrite <- Hdbg in Hnz.
    assert (Hgfit : (b < Z.of_nat (length (powers_of_gamma_g (params self))))%Z).
    { rewrite Hgam, length_map, length_seq. lia. }
    destruct (commit_hiding_returns self p fuel r b Hhb Hfit Hnz ltac:(lia)
                                    Hgfit Hk)
      as (ri & r' & Hc & Hrd & Hrl).
    destruct (open_returns self p z ri g0 gamma0 s0 h0 Hsrs Hlen ltac:(lia))
      as (wv & Hopen & Hw).
    { rewrite Hhb. repeat split; try assumption; lia. }
    rewrite Hhb in Hopen, Hw.
    do 4 eexists. split; [exact Hc |]. split; [exact Hopen |].
    apply (check_accepts self _ z _ _ g0 gamma0 s0 h0 Hsrs); [lia |].
    rewrite Hhb. eexists. split; [reflexivity |].
    simpl w. simpl value. rewrite Hw, Hp_msm.
    rewrite Hgam, msm_srs_all by (rewrite Hrl; lia).
    unfold evaluate. simpl coeffs. ring.
  - destruct (open_returns self p z [] g0 gamma0 s0 h0 Hsrs Hlen ltac:(lia))
      as (wv & Hopen & Hw).
    { rewrite Hhb. congruence. }
    rewrite Hhb in Hopen, Hw.
    do 4 eexists. split; [apply commit_plain; try assumption; congruence |].
    split; [exact Hopen |].
    apply (check_accepts self _ z _ _ g0 gamma0 s0 h0 Hsrs); [lia |].
    rewrite Hhb. simpl w. simpl value. rewrite Hw, Hp_msm. ring.
Qed.

(** C2 — [check].  With [g0 = powers_of_g[0]] (and, under hiding,
    [gamma0 = powers_of_gamma_g[0]] and the proof's blinding value [rv]),
    [check] computes [inner = comm.value - g0 * value], minus [gamma0 * rv]
    when hiding is enabled, and returns true exactly when
    [pairing(inner, h) = pairing(proof.w, beta_h - h * point)].  The code
    compares the entries [.value[0]] of the two pairings, which are taken to
    determine the element. *)
Theorem check_pairing_identity (self : KZG10Commitment) (comm : Commitment)
        (point v : F) (proof : OpeningProof) (g0 gamma0 rv : F) :
  py_get (powers_of_g (params self)) 0 = Ret g0 ->
  (hiding_bound self <> None ->
   py_get (powers_of_gamma_g (params self)) 0 = Ret gamma0
   /\ random_v proof = Some rv) ->
  (forall a b : F, value0 a = value0 b -> a = b) ->
  let inner :=
    match hiding_bound self with
    | Some _ => value comm - g0 * v - gamma0 * rv
    | None => value comm - g0 * v
    end in
  exists b : bool,
    check self comm point v proof = Ret b
    /\ (b = true
        <-> pairing inner (h (params self))
            = pairing (w proof)
                      (beta_h (params self) - h (params self) * point)).
Proof.
  intros Hg Hhid Hinj inner. unfold check. rewrite Hg. cbn [bind].
  unfold value_of.
  assert (Hiff : forall a b : F, (value0 a =? value0 b)%Z = true <-> a = b).
  { intros a b. rewrite Z.eqb_eq. split; [apply Hinj | now intros ->]. }
  subst inner. destruct (hiding_bound self) as [bnd |].
  - destruct Hhid as [Hgam Hrv]; [discriminate |].
    rewrite Hgam, Hrv. cbn [bind]. eexists. split; [reflexivity | apply Hiff].
  - cbn [bind]. eexists. split; [reflexivity | apply Hiff].
Qed.

(** *** The randomizers of [batch_check] *)

Lemma batch_body_step (self : KZG10Commitment) (st st' : BatchState)
      (c : Commitment) (z v : F) (proof : OpeningProof) :
  batch_body self st (c, z, v, proof) = Ret st' ->
  randomizer st'
  = (int_tape (source st) (int_pos (source st)) mod (Z.shiftl 1 128 + 1))%Z
  /\ int_pos (source st') = S (int_pos (source st))
  /\ int_tape (source st') = int_tape (source st)
  /\ total_w st' = total_w st + w proof * of_int (randomizer st)
  /\ total_c st'
     = (total_c st
        + value0 (z * w proof + of_int (value0 (value c)))%F * randomizer st)%Z.
Proof.
  unfold batch_body, randint. intros H. bind_inv H.
  inversion H; subst.
  cbn [randomizer source int_pos int_tape total_w total_c].
  repeat split.
Qed.

Lemma batch_loop (self : KZG10Commitment)
      (claims : list (Commitment * F * F * OpeningProof)) :
  forall (st0 st : BatchState),
    for_each (batch_body self) claims st0 = Ret st ->
    int_pos (source st) = (int_pos (source st0) + length claims)%nat
    /\ int_tape (source st) = int_tape (source st0)
    /\ match length claims with
       | O => randomizer st = randomizer st0
       | S j =>
           randomizer st
           = (int_tape (source st0) (int_pos (source st0) + j)
              mod (Z.shiftl 1 128 + 1))%Z
       end.
Proof.
  induction claims as [| [[[c z] v] proof] claims IH]; intros st0 st H.
  - simpl in H. inversion H; subst. simpl. repeat split. lia.
  - simpl in H. bind_inv H.
    apply batch_body_step in Hu. destruct Hu as (Hr & Hp & Ht & _).
    destruct (IH _ _ H) as (Hp' & Ht' & Hr').
    simpl length. rewrite Hp', Ht', Hp, Ht. repeat split; [lia |].
    destruct (length claims) as [| j].
    + rewrite Hr', Hr. do 2 f_equal. lia.
    + rewrite Hr', Ht, Hp. do 2 f_equal. lia.
Qed.

(** C5 (as the code has it) — The randomizers of [batch_check].  The
    coefficient of the first claim is the constant 1 and no draw is made
    for it; for every later claim [i >= 1] the coefficient is a fresh draw
    of [randint(0, 1 << 128)] (draw number [i - 1] of the tape, an integer
    between 0 and 2^128).  In both cases it is the coefficient multiplied
    into the witness and the commitment accumulators for that claim. *)
Theorem batch_check_randomizers (self : KZG10Commitment)
        (claims : list (Commitment * F * F * OpeningProof)) (r : rng)
        (i : nat) (st : BatchState) :
  (i < length claims)%nat ->
  batch_state self claims r i = Ret st ->
  int_pos (source st) = (int_pos r + i)%nat
  /\ int_tape (source st) = int_tape r
  /\ match i with
     | O => randomizer st = 1%Z
     | S j =>
         randomizer st
         = (int_tape r (int_pos r + j) mod (Z.shiftl 1 128 + 1))%Z
         /\ (0 <= randomizer st <= Z.shiftl 1 128)%Z
     end
  /\ (forall c z v proof st',
         batch_body self st (c, z, v, proof) = Ret st' ->
         total_w st' = total_w st + w proof * of_int (randomizer st)
         /\ total_c st'
            = (total_c st
               + value0 (z * w proof + of_int (value0 (value c)))%F
                 * randomizer st)%Z).
Proof.
  intros Hi H. unfold batch_state in H.
  destruct (batch_loop self _ _ _ H) as (Hp & Ht & Hr).
  rewrite length_firstn in Hp, Hr.
  replace (Nat.min i (length claims)) with i in Hp, Hr by lia.
  cbn [batch_init source int_pos int_tape randomizer] in Hp, Ht, Hr.
  split; [exact Hp |]. split; [exact Ht |]. split.
  - destruct i as [| j]; [exact Hr |]. split; [exact Hr |].
    rewrite Hr.
    assert (Hpos : (0 < Z.shiftl 1 128 + 1)%Z) by reflexivity.
    pose proof (Z.mod_pos_bound (int_tape r (int_pos r + j))
                                (Z.shiftl 1 128 + 1) Hpos) as Hm.
    clear Hpos Hr. revert Hm. generalize (Z.shiftl 1 128). intros n Hm. lia.
  - intros c z v proof st' Hb.
    apply batch_body_step in Hb. tauto.
Qed.

End KzgFacts.

(** ** The code run on concrete inputs *)

#[export] Instance Z_group_laws : DummyGroupLaws Z.
Proof.
  split.
  - intros a. simpl. ring.
  - intros a b k. simpl. ring.
Qed.

Lemma demo_init (hb : option Z) (dbg : bool) :
  KZG10Commitment_init demo_G1 demo_G2 3 hb dbg demo_rng
  = Ret (demo_kzg hb dbg, demo_rng_after_setup).
Proof. reflexivity. Qed.

(** With the single scalar 1 the windowed-NAF sum adds [base * 0] to a
    doubled zero, whatever the group: the base itself never enters. *)
Lemma msm_wnaf_scalar_one {G : Type} {grp : GroupOps G} (base : G) :
  msm_bigint_wnaf (sc := int_scalar) [base] [1]
  = Ret (gadd (gadd gzero gzero) (imul base 0)).
Proof. reflexivity. Qed.

(** C4 (failing input) — on the single base 1 with the scalar 1 the basic
    sum is 1 and the windowed-NAF sum is 0: the two algorithms disagree. *)
Theorem msm_wnaf_disagrees :
  msm_bigint_basic (G := Z) (S := Z) (sc := int_scalar) [1] [1] = 1
  /\ msm_bigint_wnaf (G := Z) (S := Z) (sc := int_scalar) [1] [1] = Ret 0.
Proof. split; reflexivity. Qed.

Lemma commit_open_check_complete_witness :
  exists (c : Commitment) (ri : list Z) (r' : rng) (proof : OpeningProof),
    commit (demo_kzg (Some 2) true) demo_poly 5 demo_rng_after_setup
    = Ret (c, ri, r')
    /\ open (demo_kzg (Some 2) true) demo_poly 4 ri = Ret proof
    /\ check (demo_kzg (Some 2) true) c 4 (evaluate demo_poly 4) proof
       = Ret true.
Proof.
  apply (commit_open_check_complete (laws := Z_laws) (glaws := Z_group_laws)
           demo_G1 demo_G2 3 (Some 2) true demo_rng).
  - reflexivity.
  - simpl. lia.
  - reflexivity.
  - split; [lia |]. split; [intros _; reflexivity |].
    exists 0%nat. split; [lia |]. vm_compute. discriminate.
Defined.

(** C1 (counterexample) — a polynomial of degree equal to [max_degree]:
    [commit] returns, but [open] stops at its assertion, so no proof is
    produced and nothing is checked. *)
Lemma commit_open_check_counterexample :
  let self := demo_kzg None false in
  let p := mkPoly [1; 2; 3; 4] in
  KZG10Commitment_init demo_G1 demo_G2 3 None false demo_rng
  = Ret (self, demo_rng_after_setup)
  /\ (degree p <= max_degree self)%Z
  /\ commit self p 5 demo_rng_after_setup
     = Ret ({| group := demo_G1; value := 1172 |}, [], demo_rng_after_setup)
  /\ open self p 4 [] = Raise (AssertionError "Too many coefficients")
  /\ ~ (exists c ri r' proof,
           commit self p 5 demo_rng_after_setup = Ret (c, ri, r')
           /\ open self p 4 ri = Ret proof
           /\ check self c 4 (evaluate p 4) proof = Ret true).
Proof.
  cbv zeta. split; [| split; [| split; [| split]]].
  - reflexivity.
  - vm_compute. discriminate.
  - reflexivity.
  - reflexivity.
  - intros (c & ri & r' & proof & Hc & Ho & _).
    assert (Hri : ri = []) by (vm_compute in Hc; congruence).
    subst ri. vm_compute in Ho. discriminate.
Qed.

Lemma check_pairing_identity_witness :
  exists b : bool,
    check (demo_kzg (Some 2) true) demo_comm 4 57 demo_proof = Ret b
    /\ (b = true
        <-> pairing (872 - 2 * 57 - 7 * 64) 3 = pairing 310 (15 - 3 * 4)).
Proof.
  refine (check_pairing_identity (demo_kzg (Some 2) true) demo_comm 4 57
                                 demo_proof 2 7 64 _ _ _).
  - reflexivity.
  - intros _. split; reflexivity.
  - intros a b H. exact H.
Defined.

Lemma batch_check_randomizers_witness :
  exists st : BatchState,
    batch_state (demo_kzg (Some 2) true) demo_claims demo_rng_after_setup 1
    = Ret st
    /\ randomizer st = 5
    /\ 0 <= randomizer st <= Z.shiftl 1 128.
Proof.
  eexists. split; [reflexivity |].
  exact (proj1 (proj2 (proj2
    (batch_check_randomizers (demo_kzg (Some 2) true) demo_claims
       demo_rng_after_setup 1 _ ltac:(simpl; lia) eq_refl)))).
Defined.

(** C5 (counterexample) — on a tape whose every draw is 5, the coefficient
    of the first claim is 1 and no draw has been made when it is used: the
    witness of the first claim enters the accumulator multiplied by 1. *)
Lemma batch_check_first_randomizer_counterexample :
  let self := demo_kzg (Some 2) true in
  (forall n, int_tape demo_rng_after_setup n mod (Z.shiftl 1 128 + 1) = 5)
  /\ exists st st',
      batch_state self demo_claims demo_rng_after_setup 0 = Ret st
      /\ randomizer st = 1
      /\ int_pos (source st) = 0%nat
      /\ batch_state self demo_claims demo_rng_after_setup 1 = Ret st'
      /\ total_w st' = w demo_proof * 1
      /\ ~ (exists n, randomizer st
                      = int_tape demo_rng_after_setup n
                        mod (Z.shiftl 1 128 + 1)).
Proof.
  cbv zeta.
  assert (Hdraw : forall n,
             int_tape demo_rng_after_setup n mod (Z.shiftl 1 128 + 1) = 5).
  { intros n. simpl. unfold cyclic. simpl length. rewrite Nat.mod_1_r.
    reflexivity. }
  split; [exact Hdraw |].
  do 2 eexists. split; [reflexivity |]. split; [reflexivity |].
  split; [reflexivity |]. split; [reflexivity |]. split; [reflexivity |].
  intros [n Hn]. rewrite Hdraw in Hn. discriminate.
Qed.



Lemma commit_blinding_degree_witness :
  (exists r' : rng,
      commit (demo_kzg (Some 2) true) demo_poly 5 demo_rng_after_setup
      = Ret (demo_comm, [0; 0; 4], r'))
  /\ (exists c ri r',
         commit (demo_kzg (Some 2) true) demo_poly 5 demo_rng_after_setup
         = Ret (c, ri, r'))
  /\ 1 <= degree (mkPoly [0; 0; 4]).
Proof.
  destruct (commit_blinding_degree (laws := Z_laws) (demo_kzg (Some 2) true)
              demo_poly 5 demo_rng_after_setup 2 eq_refl ltac:(lia))
    as [Hdeg Hret].
  split; [eexists; reflexivity |]. split.
  - apply Hret.
    + vm_compute. discriminate.
    + intros _. reflexivity.
    + simpl. lia.
    + exists 0%nat. split; [lia |]. vm_compute. discriminate.
  - exact (Hdeg demo_comm [0; 0; 4] _ eq_refl).
Defined.

Lemma setup_shape_witness :
  exists (p : Params) (r' : rng),
    setup 3 true None None demo_rng = Ret (p, r')
    /\ Z.of_nat (length (powers_of_g p)) = 3 + 1
    /\ (forall i : nat, Z.of_nat i <= 3 ->
        nth_error (powers_of_g p) i = Some (2 * Fpow 5 i))
    /\ Z.of_nat (length (powers_of_gamma_g p)) = 3 + 2
    /\ (forall i : nat, Z.of_nat i <= 3 + 1 ->
        nth_error (powers_of_gamma_g p) i = Some (7 * Fpow 5 i))
    /\ h p = 3
    /\ beta_h p = 5 * 3.
Proof.
  refine (setup_shape (laws := Z_laws) 3 true None None demo_rng _ _).
  - lia.
  - intros _. vm_compute. discriminate.
Defined.

(** C9 (counterexample) — asked for the G2 powers with the secret 0,
    [setup] computes [1 / s] and raises: no parameters are returned. *)
Lemma setup_shape_counterexample :
  0 <= 3
  /\ setup 3 true (Some 0) None demo_rng = Raise ZeroDivisionError
  /\ ~ (exists (p : Params) (r' : rng),
          setup 3 true (Some 0) None demo_rng = Ret (p, r')).
Proof.
  split; [lia |]. split; [reflexivity |].
  intros (p & r' & H). vm_compute in H. discriminate.
Qed.

Lemma commit_zero_hiding_bound_loops_witness :
  commit (demo_kzg (Some 0) false) demo_poly 1000 demo_rng_after_setup = NoFuel.
Proof.
  apply (commit_zero_hiding_bound_loops (laws := Z_laws) demo_G1 demo_G2 3
           false demo_params demo_poly 1000 demo_rng_after_setup).
Defined.

(** * Further properties of the code *)

(** ** [next_power_of_two] *)

Lemma halvings_size (p : positive) (k : Z) :
  halvings p k = k + Z.pos (Pos.size p).
Proof.
  revert k. induction p as [p IH | p IH |]; intros k; simpl.
  - rewrite IH. lia.
  - rewrite IH. lia.
  - lia.
Qed.

Lemma size_log2 (p : positive) : Z.pos (Pos.size p) = Z.log2 (Z.pos p) + 1.
Proof. destruct p as [p | p |]; simpl; lia. Qed.

(** X1 — [next_power_of_two(n)] raises on a negative [n], returns 0 on 0,
    and on a positive [n] returns the number of binary digits of [n]: the
    [k] with [2^(k-1) <= n < 2^k] (an exponent, not a power of two). *)
Theorem next_power_of_two_bit_length (n : Z) :
  (n < 0 ->
   next_power_of_two n = Raise (AssertionError "No negative integer"))
  /\ (n = 0 -> next_power_of_two n = Ret 0)
  /\ (0 < n ->
      next_power_of_two n = Ret (Z.log2 n + 1)
      /\ 2 ^ (Z.log2 n + 1 - 1) <= n < 2 ^ (Z.log2 n + 1)).
Proof.
  split; [| split].
  - intros H. destruct n; try lia. reflexivity.
  - intros ->. reflexivity.
  - intros H. destruct n as [| p |]; try lia. split.
    + unfold next_power_of_two. simpl. rewrite halvings_size, size_log2.
      simpl. reflexivity.
    + replace (Z.log2 (Z.pos p) + 1 - 1) with (Z.log2 (Z.pos p)) by lia.
      replace (Z.log2 (Z.pos p) + 1) with (Z.succ (Z.log2 (Z.pos p))) by lia.
      apply Z.log2_spec. lia.
Qed.

Lemma next_power_of_two_negative (n : Z) :
  n < 0 -> next_power_of_two n = Raise (AssertionError "No negative integer").
Proof. intros H. destruct n; try lia. reflexivity. Qed.

Lemma next_power_of_two_nonneg (n : Z) :
  0 <= n -> exists k, next_power_of_two n = Ret k.
Proof.
  intros H. unfold next_power_of_two.
  replace (0 <=? n) with true by (symmetry; apply Z.leb_le; exact H).
  simpl. eauto.
Qed.

(** ** Multi-scalar multiplication, for any group and scalars *)

Section MsmGeneric.
Context {G S : Type} {grp : GroupOps G} {sc : ScalarOps G S}.

(** X3 — [msm_bigint_basic] pairs bases and scalars with [zip]: entries of
    the longer list beyond the length of the shorter one are ignored. *)
Theorem msm_bigint_basic_truncates (bases : list G) (bigints : list S) :
  let n := Nat.min (length bases) (length bigints) in
  msm_bigint_basic bases bigints
  = msm_bigint_basic (firstn n bases) (firstn n bigints).
Proof.
  intros n. unfold msm_bigint_basic. f_equal.
  rewrite <- combine_firstn. subst n.
  rewrite <- length_combine, firstn_all. reflexivity.
Qed.

Lemma for_each_returns {A St : Type} (body : St -> A -> outcome St)
      (l : list A) :
  (forall s x, In x l -> exists s', body s x = Ret s') ->
  forall s, exists s', for_each body l s = Ret s'.
Proof.
  induction l as [| x l IH]; intros Hb s; simpl.
  - eauto.
  - destruct (Hb s x (or_introl eq_refl)) as [s1 H1]. rewrite H1. simpl.
    apply IH. intros s0 y Hy. apply Hb. now right.
Qed.

Lemma py_get_map_in_range {A B : Type} (f : A -> B) (l : list A) (i : Z) :
  0 <= i < Z.of_nat (length l) ->
  exists x, In x l /\ py_get (map f l) i = Ret (f x).
Proof.
  intros Hi. destruct l as [| x0 l0] eqn:El; [simpl in Hi; lia |].
  rewrite <- El in *.
  exists (nth (Z.to_nat i) l x0). split.
  - apply nth_In. lia.
  - rewrite (py_get_in_range (map f l) i (f x0))
      by (rewrite length_map; exact Hi).
    now rewrite map_nth.
Qed.

Lemma enumerate_in {A : Type} (l : list A) (j : Z) (x : A) :
  In (j, x) (enumerate l) -> 0 <= j < Z.of_nat (length l) /\ In x l.
Proof.
  unfold enumerate. intros H. split.
  - apply in_combine_l in H. apply range_bounds in H. exact H.
  - apply in_combine_r in H. exact H.
Qed.

Lemma wnaf_body_returns (bases : list G) (bigints : list S) (i : Z)
      (result : G) (j : Z) (base : G) (scalar : S) :
  Forall (fun s => 0 <= to_bigint s) bigints ->
  In (j, (base, scalar)) (enumerate (combine bases bigints)) ->
  exists result',
    wnaf_body (map (fun base => map (fun i => imul base i)
                                    (range (Z.shiftl 1 (WINDOW_SIZE - 1))))
                   bases)
              i result (j, (base, scalar))
    = Ret result'.
Proof.
  intros Hnn Hin. apply enumerate_in in Hin. destruct Hin as [Hj Hin].
  rewrite length_combine in Hj.
  apply in_combine_r in Hin.
  rewrite Forall_forall in Hnn. specialize (Hnn _ Hin).
  unfold wnaf_body.
  destruct (next_power_of_two_nonneg _ Hnn) as [k Hk]. rewrite Hk.
  cbn [bind].
  destruct (k >? i); [| eauto].
  cbv zeta.
  set (window := Z.land (Z.shiftr (to_bigint scalar) i)
                        (Z.shiftl 1 WINDOW_SIZE - 1)).
  assert (Hw : 0 <= window < 32).
  { unfold window. change (Z.shiftl 1 WINDOW_SIZE - 1) with (Z.ones 5).
    rewrite Z.land_ones by lia. apply Z.mod_pos_bound. reflexivity. }
  destruct (window =? 0) eqn:Ez; cbn [negb]; [eauto |].
  apply Z.eqb_neq in Ez.
  destruct (py_get_map_in_range
              (fun base => map (fun i => imul base i)
                               (range (Z.shiftl 1 (WINDOW_SIZE - 1))))
              bases j) as (b & _ & Hrow); [lia |].
  rewrite Hrow. cbn [bind].
  change (Z.shiftl 1 (WINDOW_SIZE - 1)) with 16.
  destruct (window >=? 16) eqn:Ehi.
  - destruct (py_get_map_in_range (fun i => imul b i) (range 16) (window - 16))
      as (x & _ & Hx).
    { rewrite range_length. rewrite Z.geb_leb in Ehi. apply Z.leb_le in Ehi.
      simpl. lia. }
    rewrite Hx. cbn [bind]. eauto.
  - assert (window < 16)
      by (rewrite Z.geb_leb in Ehi; apply Z.leb_gt in Ehi; lia).
    destruct (py_get_map_in_range (fun i => imul b i) (range 16) (window - 1))
      as (x & _ & Hx).
    { rewrite range_length. simpl. lia. }
    rewrite Hx. cbn [bind]. eauto.
Qed.

(** X4 — On a non-empty list of non-negative scalars [msm_bigint_wnaf]
    returns a group element: every index into the precomputed table is in
    range (no [IndexError]), whatever the lengths of the two lists. *)
Theorem msm_bigint_wnaf_returns (bases : list G) (bigints : list S) :
  bigints <> [] ->
  Forall (fun s => 0 <= to_bigint s) bigints ->
  exists result, msm_bigint_wnaf bases bigints = Ret result.
Proof.
  intros Hne Hnn. unfold msm_bigint_wnaf.
  rewrite (comprehension_map _
             (fun s => match to_bigint s with
                       | Zpos p => halvings p 0
                       | _ => 0
                       end)).
  2:{ apply Forall_forall. intros s Hs. rewrite Forall_forall in Hnn.
      specialize (Hnn s Hs). unfold next_power_of_two.
      replace (0 <=? to_bigint s) with true
        by (symmetry; apply Z.leb_le; exact Hnn).
      reflexivity. }
  cbn [bind]. destruct bigints as [| s0 rest]; [contradiction |].
  cbn [map py_max bind].
  apply for_each_returns. intros result i _.
  apply for_each_returns. intros result' [j [base scalar]] Hin.
  apply (wnaf_body_returns bases (s0 :: rest)); assumption.
Qed.

Lemma comprehension_raises {A B : Type} (f : A -> outcome B) (e : exn)
      (l : list A) :
  Forall (fun x => (exists y, f x = Ret y) \/ f x = Raise e) l ->
  Exists (fun x => f x = Raise e) l ->
  comprehension f l = Raise e.
Proof.
  induction l as [| x l IH]; intros Hall Hex.
  - inversion Hex.
  - inversion Hall as [| ? ? Hx Hl]; subst. simpl.
    destruct Hx as [[y Hy] | Hx].
    + rewrite Hy. simpl. rewrite IH; [reflexivity | exact Hl |].
      inversion Hex as [? ? Hx | ? ? Hx]; subst; [congruence | exact Hx].
    + rewrite Hx. reflexivity.
Qed.

(** X5 — [msm_bigint_wnaf] raises [ValueError] on an empty list of scalars
    (the maximum of an empty sequence), where [msm_bigint_basic] returns
    the zero it starts from; and it raises the assertion of
    [next_power_of_two] as soon as one scalar is negative. *)
Theorem msm_bigint_wnaf_raises (bases : list G) :
  msm_bigint_wnaf bases (@nil S) = Raise ValueError
  /\ msm_bigint_basic bases (@nil S) = gzero
  /\ (forall bigints : list S,
         Exists (fun s => to_bigint s < 0) bigints ->
         msm_bigint_wnaf bases bigints
         = Raise (AssertionError "No negative integer")).
Proof.
  split; [reflexivity | split].
  - unfold msm_bigint_basic. now destruct bases.
  - intros bigints Hex. unfold msm_bigint_wnaf.
    rewrite (comprehension_raises _ (AssertionError "No negative integer"));
      [reflexivity | |].
    + apply Forall_forall. intros s _.
      destruct (Z.leb_spec 0 (to_bigint s)) as [Hs | Hs].
      * left. now apply next_power_of_two_nonneg.
      * right. now apply next_power_of_two_negative.
    + apply Exists_exists. apply Exists_exists in Hex.
      destruct Hex as (s & Hin & Hs). exists s. split; [exact Hin |].
      now apply next_power_of_two_negative.
Qed.

End MsmGeneric.

Lemma msm_bigint_wnaf_returns_witness :
  exists result : Z,
    msm_bigint_wnaf (G := Z) (S := Z) (sc := int_scalar) [1; 2] [7; 100]
    = Ret result.
Proof.
  apply (msm_bigint_wnaf_returns (sc := int_scalar) [1; 2] [7; 100]).
  - discriminate.
  - repeat constructor; simpl; lia.
Defined.

(** ** The scheme, further *)

Section KzgMore.
Context {F : Type} {ops : FieldOps F} {gops : DummyGroupOps F}
        {laws : FieldLaws F} {glaws : DummyGroupLaws F}.
Local Open Scope F_scope.

Add Ring F_is_ring_more : F_ring.

#[local] Arguments all_zero : simpl never.

Ltac bind_inv H :=
  let u := fresh "u" in
  let Hu := fresh "Hu" in
  apply bind_Ret in H; destruct H as [u [Hu H]].

(** *** [skip_leading_zeros_and_convert_to_bigints] *)

Lemma count_leading_zeros_split (cs : list F) :
  firstn (count_leading_zeros cs 0) cs
  = repeat Fzero (count_leading_zeros cs 0)
  /\ match skipn (count_leading_zeros cs 0) cs with
     | [] => True
     | c :: _ => c <> Fzero
     end.
Proof.
  induction cs as [| c t [IH1 IH2]]; simpl.
  - split; [reflexivity | exact I].
  - destruct (c ==? Fzero) eqn:E.
    + apply Feqb_eq in E. subst c. rewrite count_leading_zeros_shift. simpl.
      split; [now rewrite IH1 | exact IH2].
    + simpl. split; [reflexivity |].
      intros Hc. apply Feqb_eq in Hc. congruence.
Qed.

(** X2 — [skip_leading_zeros_and_convert_to_bigints(p)] returns a count
    [n] and a slice such that the coefficients of [p] are [n] zeros followed
    by the slice, and the slice is empty or starts with a nonzero
    coefficient. *)
Theorem skip_leading_zeros_split (p : UniPolynomial) :
  let '(n, plain) := skip_leading_zeros_and_convert_to_bigints p in
  coeffs p = repeat Fzero n ++ plain
  /\ (n <= length (coeffs p))%nat
  /\ match plain with
     | [] => True
     | c :: _ => c <> Fzero
     end.
Proof.
  unfold skip_leading_zeros_and_convert_to_bigints.
  destruct (count_leading_zeros_split (coeffs p)) as [H1 H2].
  split; [| split].
  - rewrite <- H1. symmetry. apply firstn_skipn.
  - apply (f_equal (@length F)) in H1.
    rewrite repeat_length, length_firstn in H1. lia.
  - exact H2.
Qed.

(** *** [setup], further *)

(** X6 — The negative powers of [setup].  Asked for the G2 powers with a
    zero secret, [setup] raises [ZeroDivisionError] at [1 / s].  Otherwise
    it returns: without [produce_g2_powers], [neg_powers_of_h] is empty;
    with it (and [max_degree >= 0]) it has [max_degree + 1] entries, entry
    [i] being [h] times 1 divided [i] times by the secret.  The secret is
    the one passed in (a field element, so that [/] is the division of the
    field), or else the draw that follows those of the generators. *)
Theorem setup_neg_powers_of_h (max_degree : Z) (produce_g2_powers : bool)
        (secret_symbol : option F) (generators : option (F * F)) (r : rng) :
  let k1 := match generators with Some _ => 0%nat | None => 2%nat end in
  let s0 := match secret_symbol with
            | Some x => x
            | None => field_tape r (field_pos r + k1)
            end in
  (produce_g2_powers = true -> s0 = Fzero ->
   setup max_degree produce_g2_powers secret_symbol generators r
   = Raise ZeroDivisionError)
  /\ ((produce_g2_powers = true -> s0 <> Fzero) ->
      exists (p : Params) (r' : rng),
        setup max_degree produce_g2_powers secret_symbol generators r
        = Ret (p, r')
        /\ (produce_g2_powers = false -> neg_powers_of_h p = [])
        /\ (produce_g2_powers = true ->
            (0 <= max_degree)%Z ->
            Z.of_nat (length (neg_powers_of_h p)) = (max_degree + 1)%Z
            /\ forall i : nat,
                (Z.of_nat i <= max_degree)%Z ->
                nth_error (neg_powers_of_h p) i
                = Some (h p * Nat.iter i (fun c => c / s0) Fone))).
Proof.
  pose proof (setup_exact max_degree produce_g2_powers secret_symbol
                          generators r) as H.
  cbv zeta in *. split.
  - intros -> Hs. rewrite H.
    replace (_ ==? Fzero) with true by (symmetry; now apply Feqb_eq).
    reflexivity.
  - intros Hs.
    assert (E : produce_g2_powers
                && (match secret_symbol with
                    | Some x => x
                    | None =>
                        field_tape r
                          (field_pos r
                           + match generators with
                             | Some _ => 0
                             | None => 2
                             end)
                    end ==? Fzero) = false).
    { destruct produce_g2_powers; [| reflexivity]. simpl.
      destruct (_ ==? Fzero) eqn:E; [| reflexivity].
      apply Feqb_eq in E. now destruct (Hs eq_refl). }
    rewrite E in H. do 2 eexists. split; [exact H |].
    cbn [neg_powers_of_h h]. split.
    + intros ->. reflexivity.
    + intros -> Hmd. split.
      * rewrite length_map, length_seq. lia.
      * intros i Hi.
        rewrite nth_error_map, nth_error_nth' with (d := 0%nat)
          by (rewrite length_seq; lia).
        rewrite seq_nth by lia. reflexivity.
Qed.

(** X7 — The randomness [setup] consumes.  When it returns (that is,
    unless it is asked for the G2 powers with a zero secret) it has drawn
    two field elements for the generators when none are supplied, one for
    the secret when none is supplied, and always one more for the blinding
    generator, which is the last draw; it makes no [randint] draw and leaves
    the tapes as they are.  So [setup] is not deterministic even with every
    argument supplied. *)
Theorem setup_draws (max_degree : Z) (produce_g2_powers : bool)
        (secret_symbol : option F) (generators : option (F * F)) (r : rng) :
  let k1 := match generators with Some _ => 0%nat | None => 2%nat end in
  let s0 := match secret_symbol with
            | Some x => x
            | None => field_tape r (field_pos r + k1)
            end in
  (produce_g2_powers = true -> s0 <> Fzero) ->
  exists (p : Params) (r' : rng),
    setup max_degree produce_g2_powers secret_symbol generators r = Ret (p, r')
    /\ field_pos r'
       = (field_pos r
          + match generators with Some _ => 0 | None => 2 end
          + match secret_symbol with Some _ => 0 | None => 1 end
          + 1)%nat
    /\ int_pos r' = int_pos r
    /\ field_tape r' = field_tape r
    /\ int_tape r' = int_tape r
    /\ powers_of_gamma_g p
       = map (fun j => field_tape r (field_pos r' - 1) * Fpow s0 j)
             (seq 0 (Z.to_nat (max_degree + 2))).
Proof.
  pose proof (setup_exact max_degree produce_g2_powers secret_symbol
                          generators r) as H.
  cbv zeta in *. intros Hs.
  assert (E : produce_g2_powers
              && (match secret_symbol with
                  | Some x => x
                  | None =>
                      field_tape r
                        (field_pos r
                         + match generators with
                           | Some _ => 0
                           | None => 2
                           end)
                  end ==? Fzero) = false).
  { destruct produce_g2_powers; [| reflexivity]. simpl.
    destruct (_ ==? Fzero) eqn:E; [| reflexivity].
    apply Feqb_eq in E. now destruct (Hs eq_refl). }
  rewrite E in H. do 2 eexists. split; [exact H |].
  cbn [field_pos int_pos field_tape int_tape powers_of_gamma_g].
  rewrite Nat.sub_1_r. cbn [Nat.pred].
  split; [| repeat split].
  destruct generators as [[a b] |], secret_symbol as [x |]; lia.
Qed.
(** *** [commit], further *)

(** X8 — What a commitment is.  On the parameters [setup] builds from
    generators [g], [gamma_g] and secret [s], whatever [commit] returns is
    tagged with [G1] and has the value [g * p(s)], plus [gamma_g * r(s)]
    under hiding, where [r] is the returned blinding randomness; without
    hiding the randomness is empty and no draw is made. *)
Theorem commit_value (self : KZG10Commitment) (p : UniPolynomial)
        (fuel : nat) (r : rng) (c : Commitment) (ri : list F) (r' : rng)
        (g0 gamma0 s0 h0 : F) :
  srs_of (params self) g0 gamma0 s0 h0 (max_degree self) ->
  commit self p fuel r = Ret (c, ri, r') ->
  group c = G1 self
  /\ value c
     = match hiding_bound self with
       | Some _ => g0 * evaluate p s0 + gamma0 * evaluate (mkPoly ri) s0
       | None => g0 * evaluate p s0
       end
  /\ (hiding_bound self = None -> ri = [] /\ r' = r).
Proof.
  intros (Hpg & Hgam & _ & _) H.
  pose proof (commit_Ret_fits _ _ _ _ _ H) as Hfit.
  assert (Hp_msm : msm_bigint_basic (powers_of_g (params self)) (coeffs p)
                   = g0 * evaluate p s0).
  { rewrite Hpg, msm_powers. unfold evaluate. simpl Fpow.
    rewrite eval_firstn; [reflexivity |].
    apply degree_of_tail. unfold degree in Hfit.
    rewrite Hpg, length_map, length_seq in Hfit. lia. }
  apply commit_Ret_inv in H. cbv zeta in H.
  destruct H as (_ & _ & Hg & H). rewrite msm_skip_leading_zeros in H.
  split; [exact Hg |].
  destruct (hiding_bound self) as [b |].
  - destruct H as (_ & _ & Hlarge & Hv).
    rewrite Hgam, length_map, length_seq in Hlarge.
    split; [| discriminate].
    rewrite Hv, Hp_msm, Hgam, msm_srs_all by lia. reflexivity.
  - destruct H as (-> & -> & Hv).
    split; [now rewrite Hv | auto].
Qed.

Lemma random_elements_state (n : nat) (r : @rng F) :
  field_pos (snd (random_elements n r)) = (field_pos r + n)%nat
  /\ int_pos (snd (random_elements n r)) = int_pos r.
Proof.
  revert r. induction n as [| n IH]; intros r; simpl.
  - split; [lia | reflexivity].
  - specialize (IH (snd (random_element r))).
    unfold random_element in *. simpl in *.
    destruct (random_elements n _) as [xs r2]. simpl in *.
    destruct IH as [IH1 IH2]. split; [lia | exact IH2].
Qed.

Lemma resample_first (fuel : nat) (bound : Z) :
  forall (k : nat) (random_ints : list F) (r : rng),
    degree_of random_ints = 0%nat ->
    (k < fuel)%nat ->
    (forall j, (j < k)%nat ->
               degree_of (nth_block (Z.to_nat (bound + 1)) j r) = 0%nat) ->
    degree_of (nth_block (Z.to_nat (bound + 1)) k r) <> 0%nat ->
    exists r',
      resample fuel bound random_ints r
      = Ret (nth_block (Z.to_nat (bound + 1)) k r, r')
      /\ field_pos r' = (field_pos r + S k * Z.to_nat (bound + 1))%nat
      /\ int_pos r' = int_pos r.
Proof.
  induction fuel as [| fuel IH]; intros k random_ints r H0 Hk Hbad Hgood;
    [lia |].
  simpl. unfold degree. simpl. rewrite H0. simpl.
  pose proof (random_elements_state (Z.to_nat (bound + 1)) r) as [Hp Hi].
  destruct (random_elements (Z.to_nat (bound + 1)) r) as [xs r1] eqn:Ex.
  simpl in Hp, Hi.
  destruct k as [| k].
  - simpl in Hgood. rewrite Ex in Hgood. simpl in Hgood.
    rewrite resample_done by exact Hgood.
    exists r1. simpl. rewrite Ex. simpl. repeat split; lia.
  - assert (Hxs : degree_of xs = 0%nat).
    { specialize (Hbad 0%nat ltac:(lia)). simpl in Hbad.
      now rewrite Ex in Hbad. }
    destruct (IH k xs r1 Hxs ltac:(lia)) as (r' & Hres & Hp' & Hi').
    + intros j Hj. specialize (Hbad (S j) ltac:(lia)). simpl in Hbad.
      now rewrite Ex in Hbad.
    + simpl in Hgood. now rewrite Ex in Hgood.
    + exists r'. simpl nth_block. rewrite Ex. simpl snd.
      split; [exact Hres |]. split; lia.
Qed.

(** X9 — Which randomness [commit] returns.  Under a hiding bound [b] that
    fits the SRS, if the first [k] lists of [b + 1] draws have degree 0 and
    the next one has positive degree, [commit] (with fuel for [k + 1]
    rounds; on a polynomial with a nonzero coefficient when [debug] is on)
    returns exactly that list as blinding randomness, having consumed
    [(k + 1) * (b + 1)] field draws and no [randint] draw. *)
Theorem commit_returns_first_block (self : KZG10Commitment)
        (p : UniPolynomial) (fuel : nat) (r : rng) (b : Z) (k : nat) :
  hiding_bound self = Some b ->
  (degree p + 1 <= Z.of_nat (length (powers_of_g (params self))))%Z ->
  (debug self = true -> all_zero (coeffs p) = false) ->
  (1 <= b < Z.of_nat (length (powers_of_gamma_g (params self))))%Z ->
  (k < fuel)%nat ->
  (forall j, (j < k)%nat ->
             degree_of (nth_block (Z.to_nat (b + 1)) j r) = 0%nat) ->
  degree_of (nth_block (Z.to_nat (b + 1)) k r) <> 0%nat ->
  exists c r',
    commit self p fuel r = Ret (c, nth_block (Z.to_nat (b + 1)) k r, r')
    /\ field_pos r' = (field_pos r + S k * Z.to_nat (b + 1))%nat
    /\ int_pos r' = int_pos r.
Proof.
  intros Hh Hfit Hdbg Hb Hk Hbad Hgood.
  rewrite (commit_hiding self p fuel r b Hh Hfit Hdbg).
  destruct (resample_first fuel b k [] r eq_refl Hk Hbad Hgood)
    as (r' & Hres & Hp & Hi).
  pose proof (resample_returns _ _ _ _ _ _ Hres) as [Hdeg Hlen].
  specialize (Hlen eq_refl).
  rewrite Hres. cbn [bind].
  replace (0 <? degree (mkPoly (nth_block (Z.to_nat (b + 1)) k r)))%Z
    with true by (symmetry; apply Z.ltb_lt; unfold degree; simpl; lia).
  replace (negb (b =? 0)%Z) with true
    by (symmetry; apply negb_true_iff, Z.eqb_neq; lia).
  replace (Z.of_nat (length (nth_block (Z.to_nat (b + 1)) k r)) - 1
           <? Z.of_nat (length (powers_of_gamma_g (params self))))%Z
    with true by (symmetry; apply Z.ltb_lt; lia).
  destruct (debug self); simpl; eauto.
Qed.

(** X10 — A hiding bound beyond the blinding powers.  When the hiding
    bound is at least [len(powers_of_gamma_g)] and the tape yields a
    blinding list of positive degree within the fuel, [commit] (on a
    polynomial that fits the SRS and, when [debug] is on, has a nonzero
    coefficient) raises ["Hiding bound is too large"], after the resampling
    loop has run. *)
Theorem commit_hiding_bound_too_large (self : KZG10Commitment)
        (p : UniPolynomial) (fuel : nat) (r : rng) (b : Z) :
  hiding_bound self = Some b ->
  (degree p + 1 <= Z.of_nat (length (powers_of_g (params self))))%Z ->
  (debug self = true -> all_zero (coeffs p) = false) ->
  (Z.of_nat (length (powers_of_gamma_g (params self))) <= b)%Z ->
  (exists k, (k < fuel)%nat
             /\ degree_of (nth_block (Z.to_nat (b + 1)) k r) <> 0%nat) ->
  commit self p fuel r = Raise (AssertionError "Hiding bound is too large").
Proof.
  intros Hh Hfit Hdbg Hb Hk.
  rewrite (commit_hiding self p fuel r b Hh Hfit Hdbg).
  destruct (resample_terminates fuel b [] r Hk) as (ri & r' & Hres).
  pose proof (resample_returns _ _ _ _ _ _ Hres) as [Hdeg Hlen].
  specialize (Hlen eq_refl).
  assert (Hri : (2 <= length ri)%nat).
  { destruct ri as [| x [| y t]]; simpl in *; try lia; contradiction. }
  rewrite Hres. cbn [bind].
  replace (0 <? degree (mkPoly ri))%Z
    with true by (symmetry; apply Z.ltb_lt; unfold degree; simpl; lia).
  replace (negb (b =? 0)%Z) with true
    by (symmetry; apply negb_true_iff, Z.eqb_neq; lia).
  replace (Z.of_nat (length ri) - 1
           <? Z.of_nat (length (powers_of_gamma_g (params self))))%Z
    with false by (symmetry; apply Z.ltb_ge; lia).
  destruct (debug self); reflexivity.
Qed.

(** *** The opening engine, further *)

(** X11 — The witness polynomial.  For a polynomial given by at least two
    coefficients (and, under hiding, blinding randomness of at least two
    coefficients, of positive degree when [debug] is on),
    [compute_witness_polynomial] returns a witness [q] with one coefficient
    less such that [p(x) = q(x) * (x - point) + p(point)] for every [x];
    the hiding witness is [None] without hiding, and under hiding satisfies
    the same identity for the blinding polynomial. *)
Theorem compute_witness_polynomial_identity (self : KZG10Commitment)
        (p : UniPolynomial) (point : F) (random_ints : list F) :
  (2 <= length (coeffs p))%nat ->
  match hiding_bound self with
  | Some _ =>
      (2 <= length random_ints)%nat
      /\ (debug self = true -> degree_of random_ints <> 0%nat)
  | None => True
  end ->
  exists (q : UniPolynomial) (hq : option UniPolynomial),
    compute_witness_polynomial self p point random_ints = Ret (q, hq)
    /\ length (coeffs q) = (length (coeffs p) - 1)%nat
    /\ (forall x, evaluate p x
                  = evaluate q x * (x - point) + evaluate p point)
    /\ match hiding_bound self with
       | Some _ =>
           exists rq, hq = Some rq
                      /\ forall x,
                          evaluate (mkPoly random_ints) x
                          = evaluate rq x * (x - point)
                            + evaluate (mkPoly random_ints) point
       | None => hq = None
       end.
Proof.
  intros Hlen Hhid.
  destruct (division_eval (coeffs p) point Hlen)
    as (q & rem & Hdiv & Hql & Heval & Hrem & _).
  unfold compute_witness_polynomial, poly_division_by_linear_divisor.
  rewrite Hdiv. cbn [bind].
  destruct (hiding_bound self) as [b |].
  - destruct Hhid as [Hrl Hrd].
    destruct (division_eval random_ints point Hrl)
      as (rq & rrem & Hrdiv & _ & Hreval & Hrrem & _).
    replace (if debug self
             then py_assert (0 <? degree (mkPoly random_ints))%Z
                            "Degree of random poly is zero"
             else Ret tt) with (Ret tt).
    2:{ destruct (debug self); [| reflexivity].
        specialize (Hrd eq_refl).
        replace (0 <? degree (mkPoly random_ints))%Z with true
          by (symmetry; apply Z.ltb_lt; unfold degree; simpl; lia).
        reflexivity. }
    cbn [bind coeffs]. rewrite Hrdiv. cbn [bind].
    do 2 eexists. split; [reflexivity |]. split; [exact Hql |].
    split; [intros x; unfold evaluate; simpl; rewrite <- Hrem; apply Heval |].
    eexists. split; [reflexivity |].
    intros x. unfold evaluate. simpl. rewrite <- Hrrem. apply Hreval.
  - do 2 eexists. split; [reflexivity |]. split; [exact Hql |].
    split; [| reflexivity].
    intros x. unfold evaluate. simpl. rewrite <- Hrem. apply Heval.
Qed.

(** X12 — [open] under [debug] without hiding.  With [debug] on and no
    hiding bound, [open] never returns a proof: whatever the polynomial,
    the point and the randomness, it stops at an assertion (its own on the
    degree, the one of the division, or
    [isinstance(hiding_witness_poly, UniPolynomial)] on [None]). *)
Theorem open_debug_without_hiding_raises (self : KZG10Commitment)
        (p : UniPolynomial) (point : F) (random_ints : list F) :
  debug self = true ->
  hiding_bound self = None ->
  exists msg, open self p point random_ints = Raise (AssertionError msg).
Proof.
  intros Hd Hh. unfold open.
  destruct (degree p + 1 <? Z.of_nat (length (powers_of_g (params self))))%Z;
    [| simpl; eauto].
  cbn [py_assert bind].
  unfold compute_witness_polynomial, poly_division_by_linear_divisor.
  destruct (Nat.le_gt_cases 2 (length (coeffs p))) as [Hlen | Hlen].
  - destruct (division_eval (coeffs p) point Hlen) as (q & rem & Hdiv & _).
    rewrite Hdiv, Hh, Hd. simpl. eauto.
  - unfold division_by_linear_divisor.
    replace (1 <? Z.of_nat (length (coeffs p)))%Z with false
      by (symmetry; apply Z.ltb_ge; lia).
    simpl. eauto.
Qed.

(** *** Python integers in the field *)







(** *** [check], further *)

(** X13 — [check] accepts one value only.  On the parameters of [setup],
    when the pairing with [h] separates group elements, [g] is not a zero
    divisor and [.value[0]] determines an element, a proof that is a valid
    opening of the commitment at [point] for the value [v] is accepted by
    [check] for [v] and rejected (with [false], not an exception) for every
    other value. *)
Theorem check_accepts_only_the_value (self : KZG10Commitment)
        (comm : Commitment) (point v v' : F) (proof : OpeningProof)
        (g0 gamma0 s0 h0 : F) :
  srs_of (params self) g0 gamma0 s0 h0 (max_degree self) ->
  (0 <= max_degree self)%Z ->
  (forall a b : F, value0 a = value0 b -> a = b) ->
  (forall a b : F, pairing a h0 = pairing b h0 -> a = b) ->
  (forall x : F, g0 * x = Fzero -> x = Fzero) ->
  valid_opening self g0 gamma0 s0 (comm, point, v, proof) ->
  exists b : bool,
    check self comm point v' proof = Ret b /\ (b = true <-> v' = v).
Proof.
  intros (Hpg & Hgam & Hh & Hbeta) Hmd Hinj Hpair Hg Hvalid.
  unfold check. rewrite Hpg, Hgam, Hh, Hbeta.
  replace (Z.to_nat (max_degree self + 1)) with (S (Z.to_nat (max_degree self)))
    by lia.
  replace (Z.to_nat (max_degree self + 2))
    with (S (S (Z.to_nat (max_degree self)))) by lia.
  rewrite srs_first. cbn [bind]. unfold value_of.
  replace (s0 * h0 - h0 * point) with (h0 * (s0 - point)) by ring.
  rewrite <- pairing_bilinear.
  unfold valid_opening in Hvalid.
  destruct (hiding_bound self) as [bnd |].
  - destruct Hvalid as (rv & Hrv & Hw).
    rewrite srs_first, Hrv. cbn [bind]. eexists. split; [reflexivity |].
    rewrite Z.eqb_eq. split.
    + intros E. apply Hinj, Hpair in E.
      assert (Hz : g0 * (v - v') = Fzero).
      { replace (g0 * (v - v'))
          with ((value comm - g0 * Fone * v' - gamma0 * Fone * rv)
                - (value comm - g0 * v - gamma0 * rv)) by ring.
        rewrite E, Hw. ring. }
      apply Hg in Hz. replace v' with (v - (v - v')) by ring.
      rewrite Hz. ring.
    + intros ->. f_equal. f_equal. rewrite Hw. ring.
  - cbn [bind]. eexists. split; [reflexivity |].
    rewrite Z.eqb_eq. split.
    + intros E. apply Hinj, Hpair in E.
      assert (Hz : g0 * (v - v') = Fzero).
      { replace (g0 * (v - v'))
          with ((value comm - g0 * Fone * v') - (value comm - g0 * v)) by ring.
        rewrite E, Hvalid. ring. }
      apply Hg in Hz. replace v' with (v - (v - v')) by ring.
      rewrite Hz. ring.
    + intros ->. f_equal. f_equal. rewrite Hvalid. ring.
Qed.

(** *** [batch_check], further *)



Lemma combine_truncate {A B : Type} (l : list A) (l' : list B) (n : nat) :
  (Nat.min (length l) (length l') <= n)%nat ->
  combine (firstn n l) (firstn n l') = combine l l'.
Proof.
  intros H. rewrite <- combine_firstn. apply firstn_all2.
  now rewrite length_combine.
Qed.

(** X15 — [batch_check] pairs its four lists with [zip]: when their lengths
    differ, only the common prefix is verified; surplus commitments,
    points, values or proofs are ignored without an error. *)
Theorem batch_check_truncates (self : KZG10Commitment)
        (commitments : list Commitment) (points values : list F)
        (proofs : list OpeningProof) (r : rng) :
  let n := Nat.min (Nat.min (Nat.min (length commitments) (length points))
                            (length values))
                   (length proofs) in
  batch_check self commitments points values proofs r
  = batch_check self (firstn n commitments) (firstn n points)
                (firstn n values) (firstn n proofs) r.
Proof.
  intros n. unfold batch_check. f_equal. f_equal. unfold zip4.
  rewrite <- !combine_firstn. symmetry. apply firstn_all2.
  rewrite !length_combine. subst n. lia.
Qed.

(** *** What a returned proof tells *)

Lemma open_Ret_pre (self : KZG10Commitment) (p : UniPolynomial) (point : F)
      (random_ints : list F) (proof : OpeningProof) :
  open self p point random_ints = Ret proof ->
  (degree p + 1 < Z.of_nat (length (powers_of_g (params self))))%Z
  /\ (2 <= length (coeffs p))%nat
  /\ (debug self = true -> hiding_bound self <> None).
Proof.
  intros H. unfold open in H.
  apply bind_Ret in H. destruct H as [u [Hassert H]].
  apply py_assert_true in Hassert. apply Z.ltb_lt in Hassert.
  split; [exact Hassert |].
  apply bind_Ret in H. destruct H as [[wp hwp] [Hcw H]].
  unfold compute_witness_polynomial in Hcw.
  apply bind_Ret in Hcw. destruct Hcw as [[q pz] [Hdiv Hcw]].
  split.
  - destruct (Nat.le_gt_cases 2 (length (coeffs p))) as [Hlen | Hlen];
      [exact Hlen |].
    exfalso.
    unfold poly_division_by_linear_divisor, division_by_linear_divisor in Hdiv.
    replace (1 <? Z.of_nat (length (coeffs p)))%Z with false in Hdiv
      by (symmetry; apply Z.ltb_ge; lia).
    discriminate.
  - intros Hd Hh. rewrite Hh in Hcw. inversion Hcw; subst.
    rewrite Hd in H. simpl in H. discriminate.
Qed.

(** X16 — What [open] requires and what its proof carries.  Whenever
    [open] returns a proof, the polynomial has [degree + 1] strictly below
    [len(powers_of_g)] and at least two coefficients, [debug] is off unless
    hiding is enabled, and the proof carries a blinding value exactly when
    hiding is enabled, which is then the blinding polynomial evaluated at
    the point. *)
Theorem open_returns_only_if (self : KZG10Commitment) (p : UniPolynomial)
        (point : F) (random_ints : list F) (proof : OpeningProof) :
  open self p point random_ints = Ret proof ->
  (degree p + 1 < Z.of_nat (length (powers_of_g (params self))))%Z
  /\ (2 <= length (coeffs p))%nat
  /\ (debug self = true -> hiding_bound self <> None)
  /\ (random_v proof = None <-> hiding_bound self = None)
  /\ (forall rv, random_v proof = Some rv ->
                 rv = evaluate (mkPoly random_ints) point).
Proof.
  intros H.
  destruct (open_Ret_pre _ _ _ _ _ H) as (H1 & H2 & H3).
  split; [exact H1 |]. split; [exact H2 |]. split; [exact H3 |].
  unfold open in H.
  apply bind_Ret in H. destruct H as [u [_ H]].
  apply bind_Ret in H. destruct H as [[wp hwp] [Hcw H]].
  apply bind_Ret in H. destruct H as [u' [_ H]].
  unfold compute_witness_polynomial in Hcw.
  apply bind_Ret in Hcw. destruct Hcw as [[q pz] [_ Hcw]].
  unfold open_with_witness_polynomial in H.
  apply bind_Ret in H. destruct H as [u'' [_ H]].
  cbn [skip_leading_zeros_and_convert_to_bigints msm_bigint negation_is_cheap
       bind] in H.
  destruct (hiding_bound self) as [b |].
  - apply bind_Ret in Hcw. destruct Hcw as [u3 [_ Hcw]].
    apply bind_Ret in Hcw. destruct Hcw as [[rq pr] [_ Hcw]].
    inversion Hcw; subst. inversion H; subst. simpl.
    split; [split; discriminate |].
    intros rv Hrv. now inversion Hrv.
  - inversion Hcw; subst. inversion H; subst. simpl.
    split; [split; reflexivity | discriminate].
Qed.

Lemma commit_Ret_facts (self : KZG10Commitment) (p : UniPolynomial)
      (fuel : nat) (r : rng) (c : Commitment) (ri : list F) (r' : rng) :
  commit self p fuel r = Ret (c, ri, r') ->
  (degree p + 1 <= Z.of_nat (length (powers_of_g (params self))))%Z
  /\ match hiding_bound self with
     | Some b =>
         value c
         = msm_bigint_basic (powers_of_g (params self)) (coeffs p)
           + msm_bigint_basic (powers_of_gamma_g (params self)) ri
         /\ degree_of ri <> 0%nat
         /\ length ri = Z.to_nat (b + 1)
         /\ (b < Z.of_nat (length (powers_of_gamma_g (params self))))%Z
     | None =>
         value c = msm_bigint_basic (powers_of_g (params self)) (coeffs p)
         /\ ri = []
     end.
Proof.
  intros H. apply commit_Ret_inv in H. cbv zeta in H.
  destruct H as (Hfit & _ & _ & H). rewrite msm_skip_leading_zeros in H.
  split; [exact Hfit |].
  destruct (hiding_bound self) as [b |].
  - destruct H as (Hres & _ & Hlarge & Hv).
    apply resample_returns in Hres. destruct Hres as [Hdeg Hlen].
    specialize (Hlen eq_refl).
    repeat split; try assumption. lia.
  - destruct H as (-> & _ & Hv). split; [exact Hv | reflexivity].
Qed.

(** X17 — Honest openings are valid.  On the parameters of [setup],
    whenever [commit] returns a commitment with its randomness and [open],
    given that randomness, returns a proof at [point], the claim
    [(commitment, point, p.evaluate(point), proof)] is a valid opening: the
    equation that [check] and [batch_check] test holds for it. *)
Theorem honest_opening_is_valid (self : KZG10Commitment) (p : UniPolynomial)
        (point : F) (fuel : nat) (r : rng) (c : Commitment) (ri : list F)
        (r' : rng) (proof : OpeningProof) (g0 gamma0 s0 h0 : F) :
  srs_of (params self) g0 gamma0 s0 h0 (max_degree self) ->
  commit self p fuel r = Ret (c, ri, r') ->
  open self p point ri = Ret proof ->
  valid_opening self g0 gamma0 s0 (c, point, evaluate p point, proof).
Proof.
  intros Hsrs Hc Ho.
  pose proof Hsrs as (Hpg & Hgam & _ & _).
  destruct (commit_Ret_facts _ _ _ _ _ _ _ Hc) as [Hfit Hcf].
  destruct (open_Ret_pre _ _ _ _ _ Ho) as (Hdeg & Hlen & Hdbg).
  assert (Hmd : (degree p < max_degree self)%Z).
  { rewrite Hpg, length_map, length_seq in Hdeg. unfold degree in *. lia. }
  assert (Hp_msm : msm_bigint_basic (powers_of_g (params self)) (coeffs p)
                   = g0 * evaluate p s0).
  { rewrite Hpg, msm_powers. unfold evaluate. simpl Fpow.
    rewrite eval_firstn; [reflexivity |].
    apply degree_of_tail. unfold degree in Hmd. lia. }
  destruct (open_returns self p point ri g0 gamma0 s0 h0 Hsrs Hlen Hmd)
    as (wv & Hopen & Hw).
  { destruct (hiding_bound self) as [b |].
    - destruct Hcf as (_ & Hrd & Hrl & Hb).
      rewrite Hgam, length_map, length_seq in Hb.
      assert ((2 <= length ri)%nat)
        by (destruct ri as [| x [| y t]]; simpl in *; try lia; contradiction).
      repeat split; try assumption; lia.
    - destruct (debug self); [| reflexivity].
      exfalso. now apply Hdbg. }
  rewrite Ho in Hopen. inversion Hopen as [Hproof].
  unfold valid_opening.
  destruct (hiding_bound self) as [b |].
  - destruct Hcf as (Hval & _ & Hrl & Hb).
    rewrite Hgam, length_map, length_seq in Hb.
    eexists. split; [reflexivity |]. simpl w.
    rewrite Hw, Hval, Hp_msm, Hgam, msm_srs_all by lia.
    unfold evaluate. simpl coeffs. ring.
  - destruct Hcf as (Hval & _). simpl w.
    rewrite Hw, Hval, Hp_msm. ring.
Qed.

End KzgMore.

(** ** The further properties on concrete inputs *)


Lemma demo_srs : srs_of demo_params 2 7 5 3 3.
Proof. unfold srs_of. repeat split. Qed.

Lemma skip_leading_zeros_split_witness :
  let '(n, plain) :=
    skip_leading_zeros_and_convert_to_bigints (mkPoly [0; 0; 3; 4]) in
  coeffs (mkPoly [0; 0; 3; 4]) = repeat Fzero n ++ plain
  /\ (n <= length (coeffs (mkPoly [0; 0; 3; 4])))%nat
  /\ match plain with
     | [] => True
     | c :: _ => c <> Fzero
     end.
Proof.
  exact (skip_leading_zeros_split (laws := Z_laws) (mkPoly [0; 0; 3; 4])).
Defined.

Lemma setup_neg_powers_of_h_witness :
  setup 3 true (Some 0) None demo_rng = Raise ZeroDivisionError
  /\ exists (p : Params) (r' : rng),
      setup 3 true None None demo_rng = Ret (p, r')
      /\ (true = false -> neg_powers_of_h p = [])
      /\ (true = true ->
          0 <= 3 ->
          Z.of_nat (length (neg_powers_of_h p)) = 3 + 1
          /\ forall i : nat,
              Z.of_nat i <= 3 ->
              nth_error (neg_powers_of_h p) i
              = Some (h p * Nat.iter i (fun c => c / 5) 1)).
Proof.
  split.
  - refine (proj1 (setup_neg_powers_of_h (laws := Z_laws) 3 true (Some 0) None
                                         demo_rng) _ _); reflexivity.
  - refine (proj2 (setup_neg_powers_of_h (laws := Z_laws) 3 true None None
                                         demo_rng) _).
    intros _. vm_compute. discriminate.
Defined.

Lemma setup_draws_witness :
  exists (p : Params) (r' : rng),
    setup 3 true None None demo_rng = Ret (p, r')
    /\ field_pos r' = (field_pos demo_rng + 2 + 1 + 1)%nat
    /\ int_pos r' = int_pos demo_rng
    /\ field_tape r' = field_tape demo_rng
    /\ int_tape r' = int_tape demo_rng
    /\ powers_of_gamma_g p
       = map (fun j => field_tape demo_rng (field_pos r' - 1) * Fpow 5 j)
             (seq 0 (Z.to_nat (3 + 2))).
Proof.
  refine (setup_draws (laws := Z_laws) 3 true None None demo_rng _).
  intros _. vm_compute. discriminate.
Defined.

Lemma commit_value_witness :
  group demo_comm = G1 (demo_kzg (Some 2) true)
  /\ value demo_comm
     = 2 * evaluate demo_poly 5 + 7 * evaluate (mkPoly [0; 0; 4]) 5
  /\ (Some 2 = None ->
      [0; 0; 4] = []
      /\ {| field_tape := field_tape demo_rng; int_tape := int_tape demo_rng;
            field_pos := 7; int_pos := 0 |} = demo_rng_after_setup).
Proof.
  refine (commit_value (laws := Z_laws) (demo_kzg (Some 2) true) demo_poly 5
                       demo_rng_after_setup demo_comm [0; 0; 4] _ 2 7 5 3
                       _ _).
  - exact demo_srs.
  - reflexivity.
Defined.

Lemma commit_returns_first_block_witness :
  exists c r',
    commit (demo_kzg (Some 2) true) demo_poly 5 demo_rng_resample
    = Ret (c, nth_block (Z.to_nat (2 + 1)) 1 demo_rng_resample, r')
    /\ field_pos r' = (field_pos demo_rng_resample + 2 * Z.to_nat (2 + 1))%nat
    /\ int_pos r' = int_pos demo_rng_resample.
Proof.
  refine (commit_returns_first_block (laws := Z_laws) (demo_kzg (Some 2) true)
            demo_poly 5 demo_rng_resample 2 1 _ _ _ _ _ _ _).
  - reflexivity.
  - vm_compute. discriminate.
  - intros _. reflexivity.
  - simpl. lia.
  - lia.
  - intros j Hj. assert (j = 0%nat) by lia. subst j. reflexivity.
  - vm_compute. discriminate.
Defined.

Lemma commit_hiding_bound_too_large_witness :
  commit (demo_kzg (Some 5) true) demo_poly 5 demo_rng_after_setup
  = Raise (AssertionError "Hiding bound is too large").
Proof.
  refine (commit_hiding_bound_too_large (laws := Z_laws)
            (demo_kzg (Some 5) true) demo_poly 5 demo_rng_after_setup 5
            _ _ _ _ _).
  - reflexivity.
  - vm_compute. discriminate.
  - intros _. reflexivity.
  - simpl. lia.
  - exists 0%nat. split; [lia |]. vm_compute. discriminate.
Defined.

Lemma compute_witness_polynomial_identity_witness :
  exists (q : UniPolynomial) (hq : option UniPolynomial),
    compute_witness_polynomial (demo_kzg (Some 2) true) demo_poly 4 [0; 0; 4]
    = Ret (q, hq)
    /\ length (coeffs q) = (length (coeffs demo_poly) - 1)%nat
    /\ (forall x, evaluate demo_poly x
                  = evaluate q x * (x - 4) + evaluate demo_poly 4)
    /\ exists rq, hq = Some rq
                  /\ forall x,
                      evaluate (mkPoly [0; 0; 4]) x
                      = evaluate rq x * (x - 4)
                        + evaluate (mkPoly [0; 0; 4]) 4.
Proof.
  refine (compute_witness_polynomial_identity (laws := Z_laws)
            (demo_kzg (Some 2) true) demo_poly 4 [0; 0; 4] _ _).
  - simpl. lia.
  - split; [simpl; lia |]. intros _. vm_compute. discriminate.
Defined.

Lemma open_debug_without_hiding_raises_witness :
  exists msg,
    open (demo_kzg None true) demo_poly 4 [] = Raise (AssertionError msg).
Proof.
  refine (open_debug_without_hiding_raises (laws := Z_laws)
            (demo_kzg None true) demo_poly 4 [] _ _); reflexivity.
Defined.

Lemma check_accepts_only_the_value_witness :
  exists b : bool,
    check (demo_kzg (Some 2) true) demo_comm 4 58 demo_proof = Ret b
    /\ (b = true <-> 58 = 57).
Proof.
  refine (check_accepts_only_the_value (laws := Z_laws)
            (glaws := Z_group_laws) (demo_kzg (Some 2) true) demo_comm 4 57 58
            demo_proof 2 7 5 3 _ _ _ _ _ _).
  - exact demo_srs.
  - simpl. lia.
  - intros a b H. exact H.
  - intros a b H. change (a * 3 = b * 3) in H. lia.
  - intros x H. change (2 * x = 0) in H. change (x = 0). lia.
  - exists 64. split; reflexivity.
Defined.


Lemma open_returns_only_if_witness :
  (degree demo_poly + 1
   < Z.of_nat (length (powers_of_g (params (demo_kzg (Some 2) true)))))
  /\ (2 <= length (coeffs demo_poly))%nat
  /\ (debug (demo_kzg (Some 2) true) = true ->
      hiding_bound (demo_kzg (Some 2) true) <> None)
  /\ (random_v demo_proof = None
      <-> hiding_bound (demo_kzg (Some 2) true) = None)
  /\ (forall rv, random_v demo_proof = Some rv ->
                 rv = evaluate (mkPoly [0; 0; 4]) 4).
Proof.
  refine (open_returns_only_if (demo_kzg (Some 2) true) demo_poly 4 [0; 0; 4]
                               demo_proof _).
  reflexivity.
Defined.

Lemma honest_opening_is_valid_witness :
  valid_opening (demo_kzg (Some 2) true) 2 7 5
                (demo_comm, 4, evaluate demo_poly 4, demo_proof).
Proof.
  refine (honest_opening_is_valid (laws := Z_laws) (demo_kzg (Some 2) true)
            demo_poly 4 5 demo_rng_after_setup demo_comm [0; 0; 4] _
            demo_proof 2 7 5 3 _ _ _).
  - exact demo_srs.
  - reflexivity.
  - reflexivity.
Defined.
